(** * Skelenox, the collaborative IDA Pro agent of Polichombr

    A shallow embedding of [skelenox.py] (Python 2) and the properties of its
    synchronisation engine: the change filters and the local appliers of
    [SkelUtils], the HTTP client [SkelConnection], the hooks of [SkelHooks]
    and the polling thread [SkelSyncAgent].

    Conventions of the embedding:
    - a Python 2 [str] is a [string] (a sequence of 8-bit characters), a
      [unicode] object is a list of code points;
    - Python values that cross the JSON boundary are terms of [pyval];
    - a method is a computation in the monad [M]: it reads and writes a
      [World] (the IDA database, the connection object, the network, the
      agent's watermark, the trace of effects) and returns or raises;
    - the IDA host, the analyst and the network are oracles stored in the
      world: what they answer is data, what the program does with the
      answers is code. *)

From Stdlib Require Import ZArith NArith String Ascii List Bool Lia Permutation.
From stdpp Require Import base option gmap.
Import ListNotations.

Set Warnings "-register-all".

Local Open Scope Z_scope.

(** ** Python strings *)

Module PyStr.

Abbreviation bytes := string.
Definition unicode := list N.

Definition is_ascii (c : ascii) : bool := (N_of_ascii c <? 128)%N.
Definition is_ascii_cp (n : N) : bool := (n <? 128)%N.

(** [u"..."] for a literal that holds ASCII characters only. *)
Definition U (s : bytes) : unicode := map N_of_ascii (list_ascii_of_string s).

(** [s.startswith(p)] *)
Definition startswith (s p : bytes) : bool := String.prefix p s.

(** [s[:n]] *)
Fixpoint slice_to (n : nat) (s : bytes) : bytes :=
  match n, s with
  | S k, String c r => String c (slice_to k r)
  | _, _ => EmptyString
  end.

(** [sub in s] *)
Fixpoint contains (sub s : bytes) : bool :=
  match s with
  | EmptyString => String.prefix sub EmptyString
  | String _ r => String.prefix sub s || contains sub r
  end.

(** [c.lower()] on a byte, in the C locale: only A-Z change. *)
Definition lower_ascii (c : ascii) : ascii :=
  let n := N_of_ascii c in
  if ((65 <=? n) && (n <=? 90))%N then ascii_of_N (n + 32) else c.

Fixpoint lower (s : bytes) : bytes :=
  match s with
  | EmptyString => EmptyString
  | String c r => String (lower_ascii c) (lower r)
  end.

(** [s.replace(old, new)]: every occurrence of [old], left to right, not
    overlapping. [skip] counts the characters of a match still to drop. *)
Fixpoint replace_from (old new : bytes) (skip : nat) (s : bytes) : bytes :=
  match s with
  | EmptyString => EmptyString
  | String c r =>
      match skip with
      | S k => replace_from old new k r
      | O =>
          if String.prefix old s
          then new ++ replace_from old new (String.length old - 1) r
          else String c (replace_from old new 0 r)
      end
  end.

Fixpoint interleave (new s : bytes) : bytes :=
  match s with
  | EmptyString => new
  | String c r => new ++ String c (interleave new r)
  end.

Definition replace (s old new : bytes) : bytes :=
  match old with
  | EmptyString => interleave new s
  | _ => replace_from old new 0 s
  end.

(** [u.encode('ascii', 'ignore')] and [u.encode('ascii', 'replace')] *)
Fixpoint encode_ignore (u : unicode) : bytes :=
  match u with
  | [] => EmptyString
  | n :: r => if is_ascii_cp n then String (ascii_of_N n) (encode_ignore r)
              else encode_ignore r
  end.

Fixpoint encode_replace (u : unicode) : bytes :=
  match u with
  | [] => EmptyString
  | n :: r => String (if is_ascii_cp n then ascii_of_N n else "?"%char)
                     (encode_replace r)
  end.

(** The implicit [s.decode('ascii')] of a mixed comparison: it fails on a
    byte above 127. *)
Fixpoint decode_ascii (s : bytes) : option unicode :=
  match s with
  | EmptyString => Some []
  | String c r =>
      if is_ascii c
      then match decode_ascii r with
           | Some u => Some (N_of_ascii c :: u)
           | None => None
           end
      else None
  end.

Fixpoint unicode_eqb (u v : unicode) : bool :=
  match u, v with
  | [], [] => true
  | a :: u', b :: v' => (a =? b)%N && unicode_eqb u' v'
  | _, _ => false
  end.

(** [s == u] for a [str] and a [unicode]: equal when [s] decodes as ASCII
    to [u]; a [str] that does not decode compares unequal. *)
Definition bytes_eq_unicode (s : bytes) (u : unicode) : bool :=
  match decode_ascii s with
  | Some v => unicode_eqb v u
  | None => false
  end.

Definition all_ascii (u : unicode) : bool := forallb is_ascii_cp u.

End PyStr.
Import PyStr.

(** ** Python values, exceptions and the monad of methods *)

Inductive pyval : Type :=
| PNone
| PBool (b : bool)
| PInt (z : Z)
| PStr (s : string)
| PUnicode (u : unicode)
| PList (l : list pyval)
| PDict (kv : list (string * pyval)).

Inductive exn : Type :=
| IOError
| CannotSendRequest
| SocketError
| HTTPException
| KeyError
| TypeError
| AttributeError
| ValueError
| RuntimeError.

Inductive result (A : Type) : Type :=
| Ok (a : A)
| Raise (e : exn).
Arguments Ok {A} a.
Arguments Raise {A} e.

Definition exn_eqb (a b : exn) : bool :=
  match a, b with
  | IOError, IOError | CannotSendRequest, CannotSendRequest
  | SocketError, SocketError | HTTPException, HTTPException
  | KeyError, KeyError | TypeError, TypeError
  | AttributeError, AttributeError | ValueError, ValueError
  | RuntimeError, RuntimeError => true
  | _, _ => false
  end.

(** [bool(v)] *)
Definition truthy (v : pyval) : bool :=
  match v with
  | PNone => false
  | PBool b => b
  | PInt z => negb (z =? 0)
  | PStr s => negb (String.eqb s EmptyString)
  | PUnicode u => match u with [] => false | _ => true end
  | PList l => match l with [] => false | _ => true end
  | PDict kv => match kv with [] => false | _ => true end
  end.

Definition of_str (o : option bytes) : pyval :=
  match o with
  | None => PNone
  | Some s => PStr s
  end.

(** [s == v] where [s] is what the IDA API returned ([None] or a [str]) and
    [v] is a value decoded from JSON. *)
Definition str_eq (o : option bytes) (v : pyval) : bool :=
  match o, v with
  | None, PNone => true
  | Some s, PStr t => String.eqb s t
  | Some s, PUnicode u => bytes_eq_unicode s u
  | _, _ => false
  end.

(** ** The world *)

Inductive level : Type := DEBUG | INFO | WARNING | ERROR | EXCEPTION.

(** The endpoint of a request, kept as the parts the source concatenates:
    [remote_path + "samples/" + str(sample_id) + "/" + submodule + "/"],
    with the optional ["?timestamp=" + strftime(...)] of the fetches;
    ["/api/1.0/samples/"]; ["/api/1.0/samples/" + md5 + "/"]. *)
Inductive endpoint : Type :=
| EpSample (remote_path : bytes) (sample_id : pyval) (submodule : bytes)
           (timestamp : option Z)
| EpSamples
| EpSampleByHash (md5 : bytes).

Inductive sync_flag : Type := MFF_FAST | MFF_WRITE.

(** What the program did, in order. The [Call*] events mark the entry of a
    method of [SkelConnection], so that "called once" can be read off the
    trace; the others are the effects themselves. *)
Inductive event : Type :=
| EvLog (lvl : level) (msg : string)
| EvConnect (handle : nat)
| EvClose (handle : nat)
| EvRequest (method : string) (ep : endpoint) (data : pyval)
| EvExecuteSync (flag : sync_flag)
| EvMakeRptCmt (ea : Z) (text : bytes)
| EvAskYN (current : option bytes) (incoming : pyval)
| EvMakeName (ea : Z) (name : bytes)
| CallPushName (ea : Z) (name : pyval)
| CallPushComment (ea : Z) (comment : pyval)
| CallPushType (ea : Z) (mtype : pyval).

(** The IDA database and the analyst in front of it. The database is a
    store that accepts every write; [analyst] gives the answers to the
    successive [AskYN] dialogs (1 yes, 0 no, -1 cancel). *)
Record Ida : Type := mkIda {
  cmts : gmap Z bytes;
  rpt_cmts : gmap Z bytes;
  func_cmts : gmap (Z * bool) bytes;
  names : gmap Z bytes;
  types : gmap Z bytes;
  MinEA : Z;
  MaxEA : Z;
  here : Z;
  InputMD5 : bytes;
  InputFile : bytes;
  analyst : nat -> Z;
  asked : nat
}.

(** The fields of a [SkelConnection] object. *)
Record Conn : Type := mkConn {
  http_debug : bool;
  remote_path : bytes;
  h_conn : option nat;
  is_online : bool;
  sample_id : pyval
}.

(** What the server does with the [n]-th request sent: [request] raises
    [CannotSendRequest] or a socket error, [getresponse] raises, or a
    response arrives with a status and a body ([None]: a body that is not
    JSON, or not gzip when announced as such). *)
Inductive exchange : Type :=
| XCannotSend
| XSendFail
| XRespFail
| XResp (status : Z) (body : option pyval).

Record Net : Type := mkNet {
  exchanges : nat -> exchange;
  sent : nat;
  connects : nat -> bool;
  dialed : nat
}.

Record World : Type := mkWorld {
  ida : Ida;
  conn : Conn;
  net : Net;
  last_timestamp : Z;
  trace : list event
}.

Definition with_ida (f : Ida -> Ida) (w : World) : World :=
  mkWorld (f (ida w)) (conn w) (net w) (last_timestamp w) (trace w).
Definition with_conn (f : Conn -> Conn) (w : World) : World :=
  mkWorld (ida w) (f (conn w)) (net w) (last_timestamp w) (trace w).
Definition with_net (f : Net -> Net) (w : World) : World :=
  mkWorld (ida w) (conn w) (f (net w)) (last_timestamp w) (trace w).
Definition with_last_timestamp (t : Z) (w : World) : World :=
  mkWorld (ida w) (conn w) (net w) t (trace w).
Definition emit (e : event) (w : World) : World :=
  mkWorld (ida w) (conn w) (net w) (last_timestamp w) (trace w ++ [e]).

Definition set_rpt_cmt (ea : Z) (s : bytes) (i : Ida) : Ida :=
  mkIda (cmts i) (<[ea := s]> (rpt_cmts i)) (func_cmts i) (names i) (types i)
        (MinEA i) (MaxEA i) (here i) (InputMD5 i)
        (InputFile i) (analyst i) (asked i).
Definition set_name (ea : Z) (s : bytes) (i : Ida) : Ida :=
  mkIda (cmts i) (rpt_cmts i) (func_cmts i) (<[ea := s]> (names i)) (types i)
        (MinEA i) (MaxEA i) (here i) (InputMD5 i)
        (InputFile i) (analyst i) (asked i).
Definition next_question (i : Ida) : Ida :=
  mkIda (cmts i) (rpt_cmts i) (func_cmts i) (names i) (types i)
        (MinEA i) (MaxEA i) (here i) (InputMD5 i)
        (InputFile i) (analyst i) (S (asked i)).

Definition set_h_conn (h : option nat) (c : Conn) : Conn :=
  mkConn (http_debug c) (remote_path c) h (is_online c) (sample_id c).
Definition set_is_online (b : bool) (c : Conn) : Conn :=
  mkConn (http_debug c) (remote_path c) (h_conn c) b (sample_id c).
Definition set_sample_id (v : pyval) (c : Conn) : Conn :=
  mkConn (http_debug c) (remote_path c) (h_conn c) (is_online c) v.

Definition next_request (n : Net) : Net :=
  mkNet (exchanges n) (S (sent n)) (connects n) (dialed n).
Definition next_connect (n : Net) : Net :=
  mkNet (exchanges n) (sent n) (connects n) (S (dialed n)).

(** ** The monad *)

Definition M (A : Type) : Type := World -> result A * World.

Definition ret {A} (a : A) : M A := fun w => (Ok a, w).
Definition raise {A} (e : exn) : M A := fun w => (Raise e, w).
Definition bind {A B} (m : M A) (k : A -> M B) : M B :=
  fun w => match m w with
           | (Ok a, w') => k a w'
           | (Raise e, w') => (Raise e, w')
           end.

(** [try: m  except <handled>: h] *)
Definition try_except {A} (m : M A) (handled : exn -> bool) (h : exn -> M A)
  : M A :=
  fun w => match m w with
           | (Ok a, w') => (Ok a, w')
           | (Raise e, w') => if handled e then h e w' else (Raise e, w')
           end.

Declare Scope py_scope.
Delimit Scope py_scope with py.
Notation "x <- m ;; k" := (bind m (fun x => k))
  (at level 100, m at next level, right associativity) : py_scope.
Notation "m ;; k" := (bind m (fun _ => k))
  (at level 100, right associativity) : py_scope.
Local Open Scope py_scope.

Definition get {A} (f : World -> A) : M A := fun w => (Ok (f w), w).
Definition modify (f : World -> World) : M unit := fun w => (Ok tt, f w).
Definition when (b : bool) (m : M unit) : M unit := if b then m else ret tt.

Definition lift {A} (r : result A) : M A :=
  match r with
  | Ok a => ret a
  | Raise e => raise e
  end.

(** [for x in l: body(x)] *)
Fixpoint for_each {A} (l : list A) (body : A -> M unit) : M unit :=
  match l with
  | [] => ret tt
  | x :: r => body x ;; for_each r body
  end.

Definition g_logger (lvl : level) (msg : string) : M unit :=
  modify (emit (EvLog lvl msg)).

(** [v[key]] *)
Fixpoint assoc (key : string) (kv : list (string * pyval)) : option pyval :=
  match kv with
  | [] => None
  | (k, v) :: r => if String.eqb k key then Some v else assoc key r
  end.

Definition getitem (v : pyval) (key : string) : M pyval :=
  match v with
  | PDict kv => match assoc key kv with
                | Some x => ret x
                | None => raise KeyError
                end
  | _ => raise TypeError
  end.

(** The values a [for] loop draws from [v]. *)
Definition iterate (v : pyval) : M (list pyval) :=
  match v with
  | PList l => ret l
  | PDict kv => ret (map (fun p => PStr (fst p)) kv)
  | PStr s => ret (map (fun c => PStr (String c EmptyString))
                       (list_ascii_of_string s))
  | PUnicode u => ret (map (fun n => PUnicode [n]) u)
  | _ => raise TypeError
  end.

(** An address handed to the IDA API. *)
Definition as_ea (v : pyval) : M Z :=
  match v with
  | PInt z => ret z
  | PBool b => ret (Z.b2z b)
  | _ => raise TypeError
  end.

(** [v.encode('ascii', errors)]: only strings have the method; on a [str]
    Python 2 first decodes with the strict ASCII codec. *)
Definition encode (enc : unicode -> bytes) (v : pyval) : M bytes :=
  match v with
  | PUnicode u => ret (enc u)
  | PStr s => match decode_ascii s with
              | Some _ => ret s
              | None => raise ValueError
              end
  | _ => raise AttributeError
  end.

(** *** The IDA API *)

Module idc.

Definition Comment (ea : Z) : M (option bytes) :=
  get (fun w => cmts (ida w) !! ea).
Definition RptCmt (ea : Z) : M (option bytes) :=
  get (fun w => rpt_cmts (ida w) !! ea).
Definition GetFunctionCmt (ea : Z) (repeatable : bool) : M bytes :=
  get (fun w => default EmptyString (func_cmts (ida w) !! (ea, repeatable))).
Definition GetTrueName (ea : Z) : M (option bytes) :=
  get (fun w => names (ida w) !! ea).
Definition GetType (ea : Z) : M (option bytes) :=
  get (fun w => types (ida w) !! ea).

Definition MakeRptCmt (ea : Z) (s : bytes) : M unit :=
  modify (fun w => emit (EvMakeRptCmt ea s) (with_ida (set_rpt_cmt ea s) w)).
Definition MakeName (ea : Z) (s : bytes) : M unit :=
  modify (fun w => emit (EvMakeName ea s) (with_ida (set_name ea s) w)).

(** [AskYN(default, "Replace %s by %s" % (current, incoming))] *)
Definition AskYN (current : option bytes) (incoming : pyval) : M Z :=
  answer <- get (fun w => analyst (ida w) (asked (ida w))) ;;
  modify (fun w => emit (EvAskYN current incoming) (with_ida next_question w)) ;;
  ret answer.

End idc.

Module idaapi.

(** [idaapi.execute_sync(f, flag)]: [f] runs on the main thread before the
    call returns. *)
Definition execute_sync {A} (f : M A) (flag : sync_flag) : M A :=
  modify (emit (EvExecuteSync flag)) ;; f.

End idaapi.

(** ** class SkelConnection *)

Module SkelConnection.

Local Open Scope string_scope.

Definition close_connection : M unit :=
  g_logger DEBUG "Closing connection" ;;
  h <- get (fun w => h_conn (conn w)) ;;
  match h with
  | Some n => modify (emit (EvClose n))
  | None => ret tt
  end ;;
  modify (with_conn (set_is_online false)) ;;
  modify (with_conn (set_sample_id PNone)).

(** [self.h_conn.request(method, endpoint, json_data, headers)]: the next
    exchange of the network is consumed. *)
Definition request (method : string) (ep : endpoint) (data : pyval)
  : M exchange :=
  h <- get (fun w => h_conn (conn w)) ;;
  match h with
  | None => raise AttributeError
  | Some _ =>
      x <- get (fun w => exchanges (net w) (sent (net w))) ;;
      modify (fun w => emit (EvRequest method ep data)
                            (with_net next_request w)) ;;
      match x with
      | XCannotSend => raise CannotSendRequest
      | XSendFail => raise SocketError
      | _ => ret x
      end
  end.

(** [self.h_conn.getresponse()] *)
Definition getresponse (x : exchange) : M (Z * option pyval) :=
  match x with
  | XResp status body => ret (status, body)
  | _ => raise HTTPException
  end.

(** The end of [poli_request], from [res = self.h_conn.getresponse()]. *)
Definition read_response (x : exchange) : M pyval :=
  res <- getresponse x ;;
  when (negb (fst res =? 200)%Z)
       (g_logger ERROR "The %s request didn't go as expected") ;;
  match snd res with
  | Some result => ret result
  | None => raise IOError
  end.

(** The handler of [except httplib.CannotSendRequest], up to the second
    [request]. *)
Definition reconnect (get_online : M bool) : M unit :=
  g_logger ERROR "Error during request, retrying" ;;
  close_connection ;;
  _ <- get_online ;;
  ret tt.

(** The body of [poli_request], open in its callee [get_online] (which
    calls [poli_request] again through [init_sample_id]). *)
Definition poli_request_with (get_online : M bool)
    (ep : endpoint) (data : pyval) (method : string) : M pyval :=
  online <- get (fun w => is_online (conn w)) ;;
  if negb online
  then g_logger ERROR "Cannot send requests while not connected" ;;
       raise IOError
  else
    x <- try_except (request method ep data)
           (exn_eqb CannotSendRequest)
           (fun _ => reconnect get_online ;; request method ep data) ;;
    read_response x.

Definition get_sample_id_with (poli_get : endpoint -> pyval -> M pyval)
  : M pyval :=
  md5 <- get (fun w => InputMD5 (ida w)) ;;
  try_except
    (data <- poli_get (EpSampleByHash (lower md5)) PNone ;;
     sid <- getitem data "sample_id" ;;
     match sid with
     | PNone => ret (PBool false)
     | _ => ret sid
     end)
    (fun _ => true)
    (fun _ => ret (PBool false)).

(** The multipart body holds the name and the content of the input file;
    the trace keeps the name. *)
Definition send_sample : M pyval :=
  file <- get (fun w => InputFile (ida w)) ;;
  x <- request "POST" EpSamples (PStr file) ;;
  res <- getresponse x ;;
  match snd res with
  | Some result => ret result
  | None => g_logger EXCEPTION "Cannot load json data from server" ;;
            ret PNone
  end.

Definition init_sample_id_with (poli_get : endpoint -> pyval -> M pyval)
  : M unit :=
  sid <- get (fun w => sample_id (conn w)) ;;
  match sid with
  | PNone =>
      found <- get_sample_id_with poli_get ;;
      modify (with_conn (set_sample_id found)) ;;
      if negb (truthy found)
      then g_logger WARNING "Sample not found on server, uploading it" ;;
           _ <- send_sample ;;
           again <- get_sample_id_with poli_get ;;
           modify (with_conn (set_sample_id again)) ;;
           g_logger INFO "Sample ID: %d"
      else ret tt
  | _ => ret tt
  end.

(** [__do_init] *)
Definition do_init_with (poli_get : endpoint -> pyval -> M pyval) : M unit :=
  dbg <- get (fun w => http_debug (conn w)) ;;
  (if dbg then g_logger INFO "Connecting using simple HTTP"
   else g_logger ERROR "HTTPS is not managed at the moment...") ;;
  n <- get (fun w => dialed (net w)) ;;
  modify (with_conn (set_h_conn (Some n))) ;;
  ok <- get (fun w => connects (net w) n) ;;
  modify (with_net next_connect) ;;
  if ok
  then modify (emit (EvConnect n)) ;;
       modify (with_conn (set_is_online true)) ;;
       init_sample_id_with poli_get
  else raise SocketError.

Definition get_online_with (poli_get : endpoint -> pyval -> M pyval)
  : M bool :=
  try_except (do_init_with poli_get ;; ret true)
    (fun _ => true)
    (fun _ => g_logger EXCEPTION "The polichombr server seems down" ;;
              ret false).

(** [poli_request]. The call chain poli_request, get_online, __do_init,
    init_sample_id, get_sample_id, poli_get, poli_request has no base case
    of its own: [depth] is the room left on the interpreter's stack, and
    running out of it raises [RuntimeError]. *)
Fixpoint poli_request (depth : nat) (ep : endpoint) (data : pyval)
    (method : string) {struct depth} : M pyval :=
  match depth with
  | O => raise RuntimeError
  | S d =>
      poli_request_with
        (get_online_with (fun ep' data' => poli_request d ep' data' "GET"))
        ep data method
  end.

(** The rounds of that chain that fit under the interpreter's default limit
    of 1000 frames, at six frames a round. *)
Definition recursion_limit : nat := 166.

Definition poli_post (ep : endpoint) (data : pyval) : M pyval :=
  poli_request recursion_limit ep data "POST".
Definition poli_get (ep : endpoint) (data : pyval) : M pyval :=
  poli_request recursion_limit ep data "GET".

Definition get_sample_id : M pyval := get_sample_id_with poli_get.
Definition init_sample_id : M unit := init_sample_id_with poli_get.
Definition get_online : M bool := get_online_with poli_get.

Definition prepare_endpoint (submodule : bytes) : M endpoint :=
  get (fun w => EpSample (remote_path (conn w)) (sample_id (conn w))
                         submodule None).

Definition add_timestamp (ep : endpoint) (timestamp : option Z) : endpoint :=
  match timestamp, ep with
  | Some t, EpSample p s m _ => EpSample p s m (Some t)
  | _, _ => ep
  end.

Definition push_comment (address : Z) (comment : pyval) : M pyval :=
  modify (emit (CallPushComment address comment)) ;;
  match comment with
  | PNone => ret (PBool false)
  | _ =>
      let data := PDict [("address", PInt address); ("comment", comment)] in
      ep <- prepare_endpoint "comments" ;;
      res <- poli_post ep data ;;
      r <- getitem res "result" ;;
      (if truthy r
       then g_logger DEBUG "Comment %s sent for address 0x%x"
       else g_logger ERROR "Cannot send comment %s ( 0x%x )") ;;
      getitem res "result"
  end.

Definition push_type (address : Z) (mtype : pyval) : M pyval :=
  modify (emit (CallPushType address mtype)) ;;
  let data := PDict [("address", PInt address); ("type", mtype)] in
  ep <- prepare_endpoint "types" ;;
  res <- poli_post ep data ;;
  r <- getitem res "result" ;;
  (if truthy r
   then g_logger DEBUG "New type %s sent for address 0x%x"
   else g_logger ERROR "Cannot send type %s ( 0x%x )") ;;
  getitem res "result".

Definition get_comments (timestamp : option Z) : M pyval :=
  ep <- prepare_endpoint "comments" ;;
  res <- poli_get (add_timestamp ep timestamp) PNone ;;
  getitem res "comments".

Definition get_names (timestamp : option Z) : M pyval :=
  ep <- prepare_endpoint "names" ;;
  res <- poli_get (add_timestamp ep timestamp) PNone ;;
  getitem res "names".

Definition push_name (address : Z) (name : pyval) : M pyval :=
  modify (emit (CallPushName address name)) ;;
  match name with
  | PNone => ret (PBool false)
  | _ =>
      let data := PDict [("address", PInt address); ("name", name)] in
      ep <- prepare_endpoint "names" ;;
      res <- poli_post ep data ;;
      r <- getitem res "result" ;;
      (if truthy r
       then g_logger DEBUG "sent name %s at 0x%x"
       else g_logger ERROR "failed to send name %s") ;;
      ret (PBool true)
  end.

Definition get_abstract : M pyval :=
  ep <- prepare_endpoint "abstract" ;;
  abstract <- poli_get ep PNone ;;
  getitem abstract "abstract".

Definition push_abstract (abstract : pyval) : M unit :=
  ep <- prepare_endpoint "abstract" ;;
  let data := PDict [("abstract", abstract)] in
  res <- poli_post ep data ;;
  r <- getitem res "result" ;;
  if truthy r
  then g_logger DEBUG "Abstract sent!"
  else g_logger ERROR "Cannot send abstract...\n Error %s".

End SkelConnection.

(** ** class SkelUtils *)

Module SkelUtils.

Local Open Scope string_scope.

Definition default_values : list bytes :=
  ["sub_"; "dword_"; "unk_"; "byte_"; "word_"; "loc_"].

Definition name_blacklist (name : bytes) : bool :=
  existsb
    (fun value => contains value (slice_to (String.length value + 1) name))
    default_values.

(** [func_name_blacklist]. [name[0]] of an empty name raises [IndexError]:
    the result is then [None]. *)
Definition func_default_values : list bytes :=
  ["sub_"; "nullsub"; "unknown"; "SEH_"; "__imp"; "j_"; "__IMP"].

Definition func_name_blacklist (name : option bytes) : option bool :=
  match name with
  | Some n =>
      if existsb
           (fun val => contains val (slice_to (String.length val + 1) n))
           func_default_values
      then Some true
      else match n with
           | EmptyString => None
           | String c _ =>
               if Ascii.eqb c "@" || Ascii.eqb c "?" then Some true
               else Some false
           end
  | None => Some false
  end.

Definition fpconventions : list bytes :=
  ["__cdecl *"; "__stdcall *"; "__fastcall *"; "__thiscall *"].

Definition cconventions : list bytes :=
  ["__cdecl"; "__stdcall"; "__fastcall"; "__thiscall"].

(** One pass of [for conv in ...: if conv in typestr: mtype = ...; flag =
    True] over the pair [(flag, mtype)]. *)
Definition patch_conventions (typestr : bytes) (named : bytes -> bytes)
    (convs : list bytes) (acc : bool * option bytes) : bool * option bytes :=
  fold_left
    (fun acc conv =>
       if contains conv typestr
       then (true, Some (replace typestr conv (named conv)))
       else acc)
    convs acc.

Definition prepare_parse_type (typestr : bytes) (addr : Z)
  : M (option bytes) :=
  found <- idc.GetTrueName addr ;;
  let lname := match found with
               | None => "Default"
               | Some n => n
               end in
  let acc := patch_conventions typestr (fun conv => conv ++ lname)
               fpconventions (false, None) in
  let acc := if negb (fst acc)
             then patch_conventions typestr
                    (fun conv => conv ++ " " ++ lname) cconventions acc
             else acc in
  ret (snd acc).

(** The list as Python reads it: ["Size" "this"], written without a comma,
    is the one string ["Sizethis"]. *)
Definition black_list : list bytes :=
  ["size_t"; "int"; "LPSTR"; "char"; "char *"; "lpString";
   "dw"; "lp"; "Str"; "Dest"; "Src"; "cch"; "Dst"; "jumptable"; "switch ";
   "unsigned int"; "void *"; "indirect table for switch statement";
   "Sizethis"; "jump table for"; "switch jump"; "nSize"; "hInternet";
   "hObject";
   "SEH"; "Exception handler"; "Source"; "Size"; "Val"; "Time";
   "struct"; "unsigned __int"; "this"; "__int32"; "void ("; "Memory";
   "HINSTANCE"; "jumptable"].

Definition filter_coms_blacklist (cmt : option bytes) : M bool :=
  match cmt with
  | None => g_logger ERROR "No comment provided to filter_coms" ;; ret true
  | Some text =>
      if existsb (fun elem => startswith (lower text) (lower elem)) black_list
      then g_logger DEBUG "Comment %s has been blacklisted" ;; ret true
      else ret false
  end.

(** [execute_comment]. The subscripts [comment["address"]] and
    [comment["data"]] are read once: reading them again gives the same
    values. The value [execute_sync] returns is not used by any caller. *)
Definition execute_comment (comment : pyval) : M unit :=
  address <- getitem comment "address" ;;
  ea <- as_ea address ;;
  cmt <- idc.Comment ea ;;
  data <- getitem comment "data" ;;
  rpt <- (if negb (str_eq cmt data) then idc.RptCmt ea else ret None) ;;
  if negb (str_eq cmt data) && negb (str_eq rpt data)
  then g_logger DEBUG "[x] Adding comment %s @ 0x%x " ;;
       idaapi.execute_sync
         (text <- encode encode_replace data ;; idc.MakeRptCmt ea text)
         MFF_WRITE
  else ret tt.

(** ["Replace %s by %s" % (current, incoming)]: with a [unicode] argument
    the result is [unicode], and a [str] argument is decoded as ASCII. *)
Definition format_replace (current : option bytes) (incoming : pyval)
  : M unit :=
  match current, incoming with
  | Some s, PUnicode _ => match decode_ascii s with
                          | Some _ => ret tt
                          | None => raise ValueError
                          end
  | _, _ => ret tt
  end.

Definition get_name (name : pyval) : M (option bytes) :=
  address <- getitem name "address" ;;
  ea <- as_ea address ;;
  idc.GetTrueName ea.

Definition sync_ask_rename (name : pyval) (force : bool) : M unit :=
  go <- (if force then ret true
         else current <- get_name name ;;
              data <- getitem name "data" ;;
              format_replace current data ;;
              answer <- idc.AskYN current data ;;
              ret (answer =? 1)%Z) ;;
  if go
  then _ <- get_name name ;;
       address <- getitem name "address" ;;
       data <- getitem name "data" ;;
       g_logger DEBUG "[x] renaming %s @ 0x%x as %s" ;;
       text <- encode encode_ignore data ;;
       ea <- as_ea address ;;
       idc.MakeName ea text
  else ret tt.

Definition make_name (name : pyval) (force : bool) : M unit :=
  idaapi.execute_sync (sync_ask_rename name force) MFF_FAST.

Definition execute_rename (name : pyval) : M unit :=
  current <- get_name name ;;
  match current with
  | None => raise AttributeError
  | Some s => when (startswith s "sub_") (make_name name true)
  end ;;
  current <- get_name name ;;
  data <- getitem name "data" ;;
  when (negb (str_eq current data)) (make_name name false).

End SkelUtils.

(** ** class SkelHooks *)

Module SkelHooks.

Local Open Scope string_scope.

(** The fields [cmdname] and [addr] that [preprocess] leaves in the hook. *)
Record SkelUIHook : Type := mkUIHook { cmdname : bytes; addr : Z }.

Definition preprocess (name : bytes) : M SkelUIHook :=
  ea <- get (fun w => here (ida w)) ;;
  ret (mkUIHook name ea).

Definition postprocess (self : SkelUIHook) : M Z :=
  try_except
    (if contains "MakeComment" (cmdname self) then
       c <- idc.Comment (addr self) ;;
       match c with
       | Some _ => _ <- SkelConnection.push_comment (addr self) (of_str c) ;;
                   ret tt
       | None => ret tt
       end ;;
       f <- idc.GetFunctionCmt (addr self) false ;;
       if negb (String.eqb f "")
       then _ <- SkelConnection.push_comment (addr self) (PStr f) ;; ret tt
       else ret tt
     else if contains "MakeRptCmt" (cmdname self) then
       c <- idc.RptCmt (addr self) ;;
       (if negb (str_eq c (PStr ""))
        then _ <- SkelConnection.push_comment (addr self) (of_str c) ;;
             ret tt
        else ret tt) ;;
       f <- idc.GetFunctionCmt (addr self) true ;;
       if negb (String.eqb f "")
       then _ <- SkelConnection.push_comment (addr self) (PStr f) ;; ret tt
       else ret tt
     else if String.eqb (cmdname self) "MakeFunction" then
       ret tt
     else if String.eqb (cmdname self) "DeclareStructVar" then
       g_logger ERROR "Fixme : declare Struct variable"
     else if String.eqb (cmdname self) "SetType" then
       newtype <- idc.GetType (addr self) ;;
       match newtype with
       | None => ret tt
       | Some t =>
           newtype <- SkelUtils.prepare_parse_type t (addr self) ;;
           _ <- SkelConnection.push_type (addr self) (of_str newtype) ;;
           ret tt
       end
     else if String.eqb (cmdname self) "OpStructOffset" then
       g_logger DEBUG "A struct member is typed to struct offset"
     else ret tt)
    (exn_eqb KeyError)
    (fun _ => ret tt) ;;
  ret 0%Z.

(** [SkelIDBHook.cmt_changed(addr, rpt)] *)
Definition cmt_changed (addr : Z) (rpt : bool) : M Z :=
  cmt <- (if rpt then idc.RptCmt addr else idc.Comment addr) ;;
  blacklisted <- SkelUtils.filter_coms_blacklist cmt ;;
  (if negb blacklisted
   then _ <- SkelConnection.push_comment addr (of_str cmt) ;; ret tt
   else ret tt) ;;
  ret 0%Z.

(** [SkelIDPHook.renamed(ea, new_name, is_local_name)] *)
Definition renamed (ea : Z) (new_name : bytes) (is_local_name : bool)
  : M Z :=
  g_logger DEBUG "[IDB Hook] Something is renamed" ;;
  lo <- get (fun w => MinEA (ida w)) ;;
  hi <- get (fun w => MaxEA (ida w)) ;;
  (if (lo <=? ea)%Z && (ea <=? hi)%Z
   then if is_local_name
        then ret tt
        else if negb (SkelUtils.name_blacklist new_name)
             then _ <- SkelConnection.push_name ea (PStr new_name) ;; ret tt
             else ret tt
   else g_logger WARNING "ea outside program...") ;;
  ret 0%Z.

End SkelHooks.

(** ** class SkelSyncAgent *)

Module SkelSyncAgent.

Local Open Scope string_scope.

(** [max(a, b)]: the first argument unless the second is greater. *)
Definition py_max (a b : Z) : Z := if (b >? a)%Z then b else a.

(** A [datetime] is a point of the time line, an integer;
    [datetime.fromtimestamp(0)] is 0. *)
Definition epoch : Z := 0.

Section Agent.

(** [datetime.datetime.strptime(v, "%Y-%m-%dT%H:%M:%S.%f+00:00")], which
    returns a [datetime] or raises (a library function: any parser). *)
Variable strptime : pyval -> result Z.

(** The two statements that follow the applier in both loops of
    [sync_names]. *)
Definition advance (item : pyval) : M unit :=
  stamp <- getitem item "timestamp" ;;
  timestamp <- lift (strptime stamp) ;;
  modify (fun w =>
            with_last_timestamp (py_max timestamp (last_timestamp w)) w).

Definition sync_names : M pyval :=
  online <- get (fun w => is_online (conn w)) ;;
  if negb online
  then g_logger ERROR "[!] Error, cannot sync while offline" ;;
       ret (PBool false)
  else
    since <- get last_timestamp ;;
    comments <- SkelConnection.get_comments (Some since) ;;
    since <- get last_timestamp ;;
    names <- SkelConnection.get_names (Some since) ;;
    cs <- iterate comments ;;
    for_each cs (fun comment =>
                   SkelUtils.execute_comment comment ;; advance comment) ;;
    ns <- iterate names ;;
    for_each ns (fun name =>
                   SkelUtils.execute_rename name ;; advance name) ;;
    ret (PBool true).

(** *** The threads

    The agent's thread runs [run]; IDA's main thread runs the timer
    callback [update] and, at shutdown, [kill]. A state of the system holds
    the world, the two [threading.Event] flags and where each thread
    stands; a step is one statement of one thread. [syncs] counts the
    calls of [sync_names]. *)

Inductive run_pc : Type :=
| AtSetupTimer      (* self.setup_timer() *)
| AtWaitUpdate      (* self.update_event.wait() *)
| AtClear           (* self.update_event.clear() *)
| AtKillWait        (* if self.kill_event.wait(timeout): return 0 *)
| AtSyncNames       (* self.sync_names() *)
| Returned          (* return 0 *)
| Broke.            (* except Exception: ...; break *)

Inductive kill_pc : Type :=
| NotCalled
| AtLog             (* g_logger.debug("%s exiting", ...) *)
| AtSetKill         (* self.kill_event.set() *)
| AtSetUpdate       (* self.update_event.set() *)
| KillReturned.

Record System : Type := mkSystem {
  world : World;
  update_event : bool;
  kill_event : bool;
  timer_setup_flag : bool;
  timer_registered : bool;
  worker : run_pc;
  killer : kill_pc;
  syncs : nat
}.

Inductive thread : Type := Worker | Timer | Killer.

(** One statement of [run]; [None] when the thread is blocked or over.
    [kill_event.wait(timeout)] returns [True] as soon as the flag is set,
    and [False] when the timeout has passed with the flag still clear. *)
Definition run_step (s : System) : option System :=
  match worker s with
  | AtSetupTimer =>
      if timer_setup_flag s
      then Some (mkSystem (world s) (update_event s) (kill_event s)
                   true (timer_registered s) AtWaitUpdate (killer s) (syncs s))
      else Some (mkSystem (emit (EvExecuteSync MFF_FAST) (world s))
                   (update_event s) (kill_event s)
                   true true AtWaitUpdate (killer s) (syncs s))
  | AtWaitUpdate =>
      if update_event s
      then Some (mkSystem (world s) (update_event s) (kill_event s)
                   (timer_setup_flag s) (timer_registered s)
                   AtClear (killer s) (syncs s))
      else None
  | AtClear =>
      Some (mkSystem (world s) false (kill_event s)
              (timer_setup_flag s) (timer_registered s)
              AtKillWait (killer s) (syncs s))
  | AtKillWait =>
      Some (mkSystem (world s) (update_event s) (kill_event s)
              (timer_setup_flag s) (timer_registered s)
              (if kill_event s then Returned else AtSyncNames)
              (killer s) (syncs s))
  | AtSyncNames =>
      match sync_names (world s) with
      | (Ok _, w) =>
          Some (mkSystem w (update_event s) (kill_event s)
                  (timer_setup_flag s) (timer_registered s)
                  AtWaitUpdate (killer s) (S (syncs s)))
      | (Raise _, w) =>
          Some (mkSystem (emit (EvLog EXCEPTION "") w)
                  (update_event s) (kill_event s)
                  (timer_setup_flag s) (timer_registered s)
                  Broke (killer s) (S (syncs s)))
      end
  | Returned | Broke => None
  end.

(** The timer callback [update], run as a whole by the main thread. It
    returns -1, which unregisters the timer, once the agent is killed. *)
Definition update (s : System) : option System :=
  if timer_registered s
  then Some (mkSystem (world s) true (kill_event s) (timer_setup_flag s)
               (negb (kill_event s)) (worker s) (killer s) (syncs s))
  else None.

(** One statement of [kill]. *)
Definition kill_step (s : System) : option System :=
  match killer s with
  | NotCalled =>
      Some (mkSystem (world s) (update_event s) (kill_event s)
              (timer_setup_flag s) (timer_registered s)
              (worker s) AtLog (syncs s))
  | AtLog =>
      Some (mkSystem (emit (EvLog DEBUG "%s exiting") (world s))
              (update_event s) (kill_event s)
              (timer_setup_flag s) (timer_registered s)
              (worker s) AtSetKill (syncs s))
  | AtSetKill =>
      Some (mkSystem (world s) (update_event s) true
              (timer_setup_flag s) (timer_registered s)
              (worker s) AtSetUpdate (syncs s))
  | AtSetUpdate =>
      Some (mkSystem (world s) true (kill_event s)
              (timer_setup_flag s) (timer_registered s)
              (worker s) KillReturned (syncs s))
  | KillReturned => None
  end.

Definition step (t : thread) (s : System) : option System :=
  match t with
  | Worker => run_step s
  | Timer => update s
  | Killer => kill_step s
  end.

(** The system after the threads have moved in the order [schedule];
    [None] when the schedule asks a thread that cannot move. *)
Fixpoint exec (schedule : list thread) (s : System) : option System :=
  match schedule with
  | [] => Some s
  | t :: rest => match step t s with
                 | Some s' => exec rest s'
                 | None => None
                 end
  end.

(** [kill] from the call to the return, with no other thread in between. *)
Definition kill (s : System) : System :=
  mkSystem (emit (EvLog DEBUG "%s exiting") (world s)) true true
    (timer_setup_flag s) (timer_registered s) (worker s) KillReturned
    (syncs s).

(** [run] while no other thread moves: the worker steps until it blocks or
    stops, at most [fuel] times. *)
Fixpoint run (fuel : nat) (s : System) : System :=
  match fuel with
  | O => s
  | S n => match run_step s with
           | Some s' => run n s'
           | None => s
           end
  end.

End Agent.

End SkelSyncAgent.

(** ** class SkelNotePad *)

Module SkelNotePad.

Local Open Scope string_scope.





End SkelNotePad.

(** ** class SkelCore *)

Module SkelCore.

Local Open Scope string_scope.

(** The text [send_comments] builds for one head. *)
Definition one_comment (head : Z) : M bytes :=
  com <- idc.Comment head ;;
  rpt_com <- idc.RptCmt head ;;
  let send_com := "" in
  keep <- (if truthy (of_str com)
           then blacklisted <- SkelUtils.filter_coms_blacklist com ;;
                ret (negb blacklisted)
           else ret false) ;;
  let send_com := if keep then send_com ++ default "" com else send_com in
  keep <- (if truthy (of_str rpt_com)
           then blacklisted <- SkelUtils.filter_coms_blacklist rpt_com ;;
                ret (negb blacklisted)
           else ret false) ;;
  let send_com := if keep then send_com ++ " " ++ default "" rpt_com
                  else send_com in
  ret send_com.

(** [send_comments], over the addresses [Heads()] returns. *)
Definition send_comments (heads : list Z) : M unit :=
  for_each heads
    (fun head =>
       send_com <- one_comment head ;;
       if (0 <? String.length send_com)%nat
       then try_except
              (_ <- SkelConnection.push_comment head (PStr send_com) ;;
               ret tt)
              (fun _ => true)
              (fun _ => g_logger EXCEPTION "")
       else ret tt).

End SkelCore.

(** ** Sample worlds

    A small database, an online connection and a few servers, used to run
    the model on concrete inputs. *)

Module Sample.

Local Open Scope string_scope.

(** A program mapped at 0x400000-0x410000 with a function at 0x401000, a
    data word at 0x402000 (commented "int x") and a renamed function at
    0x403000; [answers] is what the analyst replies to the dialogs. *)
Definition database (answers : nat -> Z) : Ida :=
  mkIda {[ 4202496%Z := "int x" ]}
        ∅
        ∅
        {[ 4198400%Z := "sub_401000";
           4202496%Z := "dword_402000";
           4206592%Z := "ParseHeader" ]}
        {[ 4198400%Z := "int __cdecl(int a)"; 4202496%Z := "int" ]}
        4194304 4259840 4198400 "D41D8CD98F00B204E9800998ECF8427E"
        "sample.exe" answers 0.

Definition says_yes : nat -> Z := fun _ => 1%Z.
Definition says_no : nat -> Z := fun _ => 0%Z.

Definition online : Conn := mkConn true "/api/1.0/" (Some 0%nat) true (PInt 7).
Definition offline : Conn := mkConn true "/api/1.0/" None false PNone.

(** A server that answers every request with the same body. *)
Definition server (body : pyval) : Net :=
  mkNet (fun _ => XResp 200 (Some body)) 0 (fun _ => true) 1.

(** A server given by the list of its first exchanges; afterwards the
    connection is refused. *)
Definition scripted (l : list exchange) : Net :=
  mkNet (fun n => nth n l XSendFail) 0 (fun _ => true) 1.

(** A server that answers the two fetches of [sync_names]. *)
Definition fetched (comments names : list pyval) : Net :=
  scripted [XResp 200 (Some (PDict [("comments", PList comments)]));
            XResp 200 (Some (PDict [("names", PList names)]))].

Definition accepted : pyval := PDict [("result", PBool true)].
Definition rejected : pyval := PDict [("result", PBool false)].

Definition world (answers : nat -> Z) (c : Conn) (n : Net) : World :=
  mkWorld (database answers) c n SkelSyncAgent.epoch [].

Definition annotation (ea : Z) (text : bytes) (stamp : bytes) : pyval :=
  PDict [("address", PInt ea); ("data", PUnicode (U text));
         ("timestamp", PUnicode (U stamp))].

(** The agent between two cycles: its thread waits on [update_event], the
    timer is registered, two cycles have run. *)
Definition waiting : SkelSyncAgent.System :=
  SkelSyncAgent.mkSystem (world says_yes online (fetched [] []))
    false false true true SkelSyncAgent.AtWaitUpdate SkelSyncAgent.NotCalled
    2.

(** A stand-in for [strptime] on the timestamps the server sends, which
    have a fixed width: ["1970-01-01T00:00:05.000000+00:00"] is read as the
    number 19700101000005000000 of its first twenty digits, so that later
    timestamps are greater numbers. *)
Definition is_digit (n : N) : bool := ((48 <=? n) && (n <=? 57))%N.

Definition shape (u : unicode) : unicode :=
  map (fun n => if is_digit n then 100%N
                else if (n =? 100)%N then 0%N else n) u.

Fixpoint read_digits (u : unicode) (acc : Z) : Z :=
  match u with
  | [] => acc
  | n :: r => read_digits r (if is_digit n
                             then 10 * acc + Z.of_N (n - 48)
                             else acc)
  end.

Definition strptime (v : pyval) : result Z :=
  match v with
  | PUnicode u =>
      if unicode_eqb (shape u) (U "dddd-dd-ddTdd:dd:dd.dddddd+dd:dd")
         && unicode_eqb (skipn 26 u) (U "+00:00")
      then Ok (read_digits (firstn 26 u) 0)
      else Raise ValueError
  | PStr _ => Raise ValueError
  | _ => Raise TypeError
  end.

End Sample.

(** * The vocabulary of the properties *)

(** ** Calls and frames

    Most of what a method leaves alone is read off its primitives. A
    relation between the world before and the world after that is
    reflexive and transitive, and that every primitive write of a component
    respects, is respected by every method built from them. *)

Definition is_call (e : event) : bool :=
  match e with
  | CallPushName _ _ | CallPushComment _ _ | CallPushType _ _ => true
  | _ => false
  end.

(** The calls of [push_name], [push_comment] and [push_type] so far. *)
Definition calls (w : World) : list event := List.filter is_call (trace w).

Class Frame (P : World -> World -> Prop) : Prop := {
  frame_refl : forall w, P w w;
  frame_trans : forall a b c, P a b -> P b c -> P a c
}.

(** Respected by the writes of the connection: logging, the network
    counters and the fields of the connection object. *)
Class NetworkFrame (P : World -> World -> Prop) : Prop := {
  network_frame :: Frame P;
  nf_emit : forall e w, is_call e = false -> P w (emit e w);
  nf_request : forall w, P w (with_net next_request w);
  nf_connect : forall w, P w (with_net next_connect w);
  nf_h_conn : forall n w, P w (with_conn (set_h_conn (Some n)) w);
  nf_is_online : forall b w, P w (with_conn (set_is_online b) w);
  nf_sample_id : forall v w, P w (with_conn (set_sample_id v) w)
}.

(** Respected by the writes of the appliers: logging, the repeatable
    comments, the names and the count of dialogs. *)
Class ApplierFrame (P : World -> World -> Prop) : Prop := {
  applier_frame :: Frame P;
  af_emit : forall e w, is_call e = false -> P w (emit e w);
  af_rpt_cmt : forall ea s w, P w (with_ida (set_rpt_cmt ea s) w);
  af_name : forall ea s w, P w (with_ida (set_name ea s) w);
  af_question : forall w, P w (with_ida next_question w)
}.

Definition preserves (P : World -> World -> Prop) {A} (m : M A) : Prop :=
  forall w, P w (snd (m w)).

(** The connection leaves the database and the watermark alone. *)
Definition network_only (w w' : World) : Prop :=
  ida w' = ida w /\ last_timestamp w' = last_timestamp w.

(** The appliers leave the connection, the network and the watermark
    alone. *)
Definition applier_only (w w' : World) : Prop :=
  conn w' = conn w /\ net w' = net w /\
  last_timestamp w' = last_timestamp w.

(** No method of [SkelConnection] is entered. *)
Definition same_calls (w w' : World) : Prop := calls w' = calls w.

(** A connection object that has a handle keeps one. *)
Definition keeps_handle (w w' : World) : Prop :=
  h_conn (conn w) <> None -> h_conn (conn w') <> None.

(** ** Comments and names *)

(** As the specification words the filter: [text] starts, without regard
    to case, with [stem]. *)
Definition starts_with_ignoring_case (text stem : bytes) : Prop :=
  exists head rest, text = (head ++ rest)%string /\ lower head = lower stem.

(** The annotation a fetched dictionary stands for, when it is one: an
    integer address and a text. *)
Definition annotation_of (v : pyval) : option (Z * unicode) :=
  match v with
  | PDict kv =>
      match assoc "address" kv, assoc "data" kv with
      | Some (PInt ea), Some (PUnicode u) => Some (ea, u)
      | _, _ => None
      end
  | _ => None
  end.

(** A batch of comments handed to the applier, one after the other. *)
Definition apply_comments (batch : list pyval) : M unit :=
  for_each batch SkelUtils.execute_comment.

(** The world after the write [execute_comment] schedules. *)
Definition written (ea : Z) (text : bytes) (w : World) : World :=
  emit (EvMakeRptCmt ea text)
    (with_ida (set_rpt_cmt ea text)
       (emit (EvExecuteSync MFF_WRITE)
          (emit (EvLog DEBUG "[x] Adding comment %s @ 0x%x ") w))).

(** The repeatable comments after one annotation, as a function of the
    plain comments [cm], which no applier writes: the annotation is
    dropped when the plain comment has its text, and stored otherwise. *)
Definition rpt_step (cm r : gmap Z bytes) (c : pyval) : gmap Z bytes :=
  match annotation_of c with
  | Some (ea, u) =>
      if str_eq (cm !! ea) (PUnicode u) then r
      else <[ea := encode_replace u]> r
  | None => r
  end.

(** The last text a batch stores at [k], if it stores one. *)
Fixpoint last_write (cm : gmap Z bytes) (batch : list pyval) (k : Z)
  : option bytes :=
  match batch with
  | [] => None
  | c :: rest =>
      match last_write cm rest k with
      | Some s => Some s
      | None =>
          match annotation_of c with
          | Some (ea, u) =>
              if negb (str_eq (cm !! ea) (PUnicode u)) && (ea =? k)%Z
              then Some (encode_replace u)
              else None
          | None => None
          end
      end
  end.

Definition set_rpt_cmts (r : gmap Z bytes) (i : Ida) : Ida :=
  mkIda (cmts i) r (func_cmts i) (names i) (types i) (MinEA i) (MaxEA i)
        (here i) (InputMD5 i) (InputFile i) (analyst i) (asked i).

(** The world after [sync_ask_rename] has renamed, and after it has asked. *)
Definition renamed_to (ea : Z) (text : bytes) (w : World) : World :=
  emit (EvMakeName ea text)
    (with_ida (set_name ea text)
       (emit (EvLog DEBUG "[x] renaming %s @ 0x%x as %s") w)).

Definition asked_about (current : option bytes) (incoming : pyval)
    (w : World) : World :=
  emit (EvAskYN current incoming) (with_ida next_question w).

(** ** The connection, the watermark and the threads *)

(** The trace only grows. *)
Definition extends (w w' : World) : Prop :=
  exists l, trace w' = (trace w ++ l)%list.

(** The timestamp [advance] reads in a fetched item. *)
Definition timestamp_of (strptime : pyval -> result Z) (item : pyval)
  : result Z :=
  match item with
  | PDict kv => match assoc "timestamp" kv with
                | Some stamp => strptime stamp
                | None => Raise KeyError
                end
  | _ => Raise TypeError
  end.

(** The watermark does not go back. *)
Definition watermark_le (w w' : World) : Prop :=
  (last_timestamp w <= last_timestamp w')%Z.

(** The number of statements the agent's thread runs in a schedule. *)
Definition worker_steps (schedule : list SkelSyncAgent.thread) : nat :=
  length (List.filter
            (fun t => match t with SkelSyncAgent.Worker => true | _ => false end)
            schedule).

(** Where the agent's thread stands [n] statements after it was found
    waiting on [update_event] with both flags set: it has woken up, cleared
    the signal, seen the stop flag and returned; no [sync_names] was
    started. *)
Definition stopping (syncs0 : nat) (n : nat) (s : SkelSyncAgent.System)
  : Prop :=
  SkelSyncAgent.kill_event s = true /\
  SkelSyncAgent.syncs s = syncs0 /\
  match n with
  | 0%nat => SkelSyncAgent.worker s = SkelSyncAgent.AtWaitUpdate /\
             SkelSyncAgent.update_event s = true
  | 1%nat => SkelSyncAgent.worker s = SkelSyncAgent.AtClear
  | 2%nat => SkelSyncAgent.worker s = SkelSyncAgent.AtKillWait
  | 3%nat => SkelSyncAgent.worker s = SkelSyncAgent.Returned
  | _ => False
  end.

(** ** More vocabulary *)

(** The test of [filter_coms_blacklist] on a text. *)
Definition boilerplate (text : bytes) : bool :=
  existsb (fun elem => startswith (lower text) (lower elem))
    SkelUtils.black_list.

(** The calls so far are still there. *)
Definition keeps_calls (w w' : World) : Prop :=
  exists l, calls w' = (calls w ++ l)%list.

(** The number of runs of the timer callback in a schedule. *)
Definition timer_ticks (schedule : list SkelSyncAgent.thread) : nat :=
  length (List.filter
            (fun t => match t with SkelSyncAgent.Timer => true | _ => false end)
            schedule).

(** The calls of [sync_names] the agent's thread can still make without
    another run of the timer callback: one when it is past the wait, one
    more when the signal is set again; none of them, but a cycle already
    decided, once the stop flag is set. *)
Definition owed (s : SkelSyncAgent.System) : nat :=
  let signal : nat :=
    if SkelSyncAgent.kill_event s then 0%nat
    else if SkelSyncAgent.update_event s then 1%nat else 0%nat in
  match SkelSyncAgent.worker s with
  | SkelSyncAgent.Returned | SkelSyncAgent.Broke => 0%nat
  | SkelSyncAgent.AtSyncNames => S signal
  | SkelSyncAgent.AtKillWait =>
      if SkelSyncAgent.kill_event s then 0%nat else S signal
  | SkelSyncAgent.AtClear =>
      if SkelSyncAgent.kill_event s then 0%nat else 1%nat
  | SkelSyncAgent.AtSetupTimer | SkelSyncAgent.AtWaitUpdate => signal
  end.

(** [kill] sets the stop flag before the wake signal. *)
Definition kill_flagged (s : SkelSyncAgent.System) : bool :=
  match SkelSyncAgent.killer s with
  | SkelSyncAgent.AtSetUpdate | SkelSyncAgent.KillReturned =>
      SkelSyncAgent.kill_event s
  | _ => true
  end.

(** A comment [send_comments] keeps: there is one, it is not empty and
    the filter lets it through. *)
Definition kept (c : option bytes) : bool :=
  match c with
  | Some text => negb (String.eqb text "") && negb (boilerplate text)
  | None => false
  end.

(** The text of a head in the initial synchronisation: the plain comment,
    then a space and the repeatable comment, each when it is kept. *)
Definition initial_comment (i : Ida) (head : Z) : bytes :=
  let first := if kept (cmts i !! head)
               then default ""%string (cmts i !! head) else ""%string in
  if kept (rpt_cmts i !! head)
  then (first ++ " " ++ default "" (rpt_cmts i !! head))%string
  else first.

(** * Properties *)

(** ** Strings *)

Section StringFacts.

Local Open Scope string_scope.

Lemma prefix_length (p s : bytes) :
  String.prefix p s = true -> (String.length p <= String.length s)%nat.
Proof.
  revert s; induction p as [|a p IH]; intros [|b s]; simpl; try lia;
    try discriminate.
  destruct (ascii_dec a b); [|discriminate].
  intros H; apply IH in H; lia.
Qed.

Lemma prefix_slice_to (p s : bytes) (n : nat) :
  (String.length p <= n)%nat ->
  String.prefix p (slice_to n s) = String.prefix p s.
Proof.
  revert s n; induction p as [|a p IH]; intros s n Hn.
  - destruct n, s; reflexivity.
  - simpl in Hn. destruct n as [|n]; [lia|].
    destruct s as [|b s]; simpl; [reflexivity|].
    destruct (ascii_dec a b); [|reflexivity].
    apply IH; lia.
Qed.

Lemma length_slice_to (n : nat) (s : bytes) :
  (String.length (slice_to n s) <= n)%nat.
Proof.
  revert s; induction n as [|n IH]; intros [|c s]; simpl; try lia.
  specialize (IH s); lia.
Qed.

Lemma contains_short (p s : bytes) :
  (String.length s < String.length p)%nat -> contains p s = false.
Proof.
  induction s as [|c s IH]; intros Hlen.
  - destruct p; [simpl in Hlen; lia | reflexivity].
  - cbn [contains]. rewrite IH by (simpl in Hlen; lia).
    rewrite orb_false_r.
    destruct (String.prefix p (String c s)) eqn:E; [|reflexivity].
    apply prefix_length in E; lia.
Qed.

Lemma contains_no_longer (p s : bytes) :
  (String.length s <= String.length p)%nat ->
  contains p s = String.prefix p s.
Proof.
  destruct s as [|c s]; intros Hlen; [reflexivity|].
  cbn [contains]. rewrite contains_short by (simpl in Hlen; lia).
  apply orb_false_r.
Qed.

(** [value in name[:len(value)+1]] looks for [value] at offset 0 and at
    offset 1 of [name]. *)
Lemma contains_slice_to (value name : bytes) :
  contains value (slice_to (String.length value + 1) name)
  = String.prefix value name
    || match name with
       | EmptyString => false
       | String _ rest => String.prefix value rest
       end.
Proof.
  rewrite Nat.add_1_r.
  destruct name as [|c rest].
  - simpl. now rewrite orb_false_r.
  - change (slice_to (S (String.length value)) (String c rest))
      with (String c (slice_to (String.length value) rest)).
    cbn [contains]. f_equal.
    + change (String c (slice_to (String.length value) rest))
        with (slice_to (S (String.length value)) (String c rest)).
      apply prefix_slice_to; lia.
    + rewrite contains_no_longer by apply length_slice_to.
      apply prefix_slice_to; lia.
Qed.

Lemma contains_prefix (p s : bytes) :
  String.prefix p s = true -> contains p s = true.
Proof.
  destruct s; simpl; intros ->; reflexivity.
Qed.

End StringFacts.

(** ** The name filter *)

Section NameBlacklist.

Local Open Scope string_scope.

(** What [name_blacklist] computes: one of the prefixes stands at offset 0
    or at offset 1 of the name. *)
Lemma name_blacklist_spec (name : bytes) :
  SkelUtils.name_blacklist name = true <->
  exists value, In value SkelUtils.default_values /\
    (startswith name value = true \/
     exists c rest, name = String c rest /\ startswith rest value = true).
Proof.
  unfold SkelUtils.name_blacklist. rewrite existsb_exists.
  split; intros (value & Hin & H); exists value; (split; [exact Hin|]).
  - rewrite contains_slice_to in H. apply orb_true_iff in H as [H|H].
    + now left.
    + right. destruct name as [|c rest]; [discriminate|]. now exists c, rest.
  - rewrite contains_slice_to. apply orb_true_iff.
    destruct H as [H|(c & rest & -> & H)]; [now left | now right].
Qed.

(** C6: the filter is not a test at position 0. The name ["bloc_table"]
    starts with none of the six prefixes, it holds ["loc_"] from its second
    character on, and [name_blacklist] classifies it as a generator
    default. *)
Theorem name_blacklist_offset_one :
  SkelUtils.name_blacklist "bloc_table" = true /\
  forallb (fun value => negb (startswith "bloc_table" value))
          SkelUtils.default_values = true.
Proof. split; reflexivity. Qed.

End NameBlacklist.

(** ** Frames *)

Section Preserves.

Context (P : World -> World -> Prop) `{!Frame P}.

Lemma preserves_ret {A} (a : A) : preserves P (ret a).
Proof. intros w; apply frame_refl. Qed.

Lemma preserves_raise {A} (e : exn) : preserves P (@raise A e).
Proof. intros w; apply frame_refl. Qed.

Lemma preserves_get {A} (f : World -> A) : preserves P (get f).
Proof. intros w; apply frame_refl. Qed.

Lemma preserves_lift {A} (r : result A) : preserves P (lift r).
Proof. destruct r; intros w; apply frame_refl. Qed.

Lemma preserves_modify (f : World -> World) :
  (forall w, P w (f w)) -> preserves P (modify f).
Proof. intros H w; apply H. Qed.

Lemma preserves_bind {A B} (m : M A) (k : A -> M B) :
  preserves P m -> (forall a, preserves P (k a)) -> preserves P (bind m k).
Proof.
  intros Hm Hk w. unfold bind. specialize (Hm w).
  destruct (m w) as [[a|e] w1]; simpl in *.
  - eapply frame_trans; [exact Hm | apply Hk].
  - exact Hm.
Qed.

Lemma preserves_try {A} (m : M A) (handled : exn -> bool) (h : exn -> M A) :
  preserves P m -> (forall e, preserves P (h e)) ->
  preserves P (try_except m handled h).
Proof.
  intros Hm Hh w. unfold try_except. specialize (Hm w).
  destruct (m w) as [[a|e] w1]; simpl in *; [exact Hm|].
  destruct (handled e); [|exact Hm].
  eapply frame_trans; [exact Hm | apply Hh].
Qed.

Lemma preserves_when (b : bool) (m : M unit) :
  preserves P m -> preserves P (when b m).
Proof. destruct b; simpl; [easy | intros _; apply preserves_ret]. Qed.

Lemma preserves_for_each {A} (l : list A) (body : A -> M unit) :
  (forall a, preserves P (body a)) -> preserves P (for_each l body).
Proof.
  intros H; induction l as [|a l IH]; simpl.
  - apply preserves_ret.
  - apply preserves_bind; [apply H | intros _; exact IH].
Qed.

End Preserves.

Create HintDb frame.

Ltac stable :=
  first
    [ apply frame_refl
    | apply nf_emit; reflexivity
    | apply nf_request | apply nf_connect | apply nf_h_conn
    | apply nf_is_online | apply nf_sample_id
    | apply af_emit; reflexivity
    | apply af_rpt_cmt | apply af_name | apply af_question
    | eapply frame_trans;
      [ | first [ apply nf_emit; reflexivity | apply af_emit; reflexivity ] ];
      stable ].

Ltac preserve :=
  repeat first
    [ progress intros
    | match goal with |- Frame _ => typeclasses eauto end
    | solve [ auto with frame ]
    | lazymatch goal with
      | |- preserves _ (ret _) => apply preserves_ret
      | |- preserves _ (raise _) => apply preserves_raise
      | |- preserves _ (get _) => apply preserves_get
      | |- preserves _ (lift _) => apply preserves_lift
      | |- preserves _ (modify _) => apply preserves_modify; intros; stable
      | |- preserves _ (g_logger _ _) =>
          apply preserves_modify; intros; stable
      | |- preserves _ (when _ _) => apply preserves_when
      | |- preserves _ (for_each _ _) => apply preserves_for_each
      | |- preserves _ (try_except _ _ _) => apply preserves_try
      | |- preserves _ (bind _ _) => apply preserves_bind
      | |- preserves _ (match ?x with _ => _ end) => destruct x
      end ].

Section NetworkPreserves.

Context (P : World -> World -> Prop) `{!NetworkFrame P}.

Lemma close_connection_preserves :
  preserves P SkelConnection.close_connection.
Proof. unfold SkelConnection.close_connection. preserve. Qed.

Lemma request_preserves method ep data :
  preserves P (SkelConnection.request method ep data).
Proof. unfold SkelConnection.request. preserve. Qed.

Lemma read_response_preserves x :
  preserves P (SkelConnection.read_response x).
Proof.
  unfold SkelConnection.read_response, SkelConnection.getresponse. preserve.
Qed.

Hint Resolve close_connection_preserves request_preserves
  read_response_preserves : frame.

Lemma send_sample_preserves : preserves P SkelConnection.send_sample.
Proof.
  unfold SkelConnection.send_sample, SkelConnection.getresponse. preserve.
Qed.

Hint Resolve send_sample_preserves : frame.

Lemma get_online_with_preserves poli_get :
  (forall ep data, preserves P (poli_get ep data)) ->
  preserves P (SkelConnection.get_online_with poli_get).
Proof.
  intros H.
  unfold SkelConnection.get_online_with, SkelConnection.do_init_with,
    SkelConnection.init_sample_id_with, SkelConnection.get_sample_id_with,
    getitem.
  preserve.
Qed.

Lemma poli_request_with_preserves get_online ep data method :
  preserves P get_online ->
  preserves P (SkelConnection.poli_request_with get_online ep data method).
Proof.
  intros H.
  unfold SkelConnection.poli_request_with, SkelConnection.reconnect.
  preserve.
Qed.

Lemma poli_request_preserves depth ep data method :
  preserves P (SkelConnection.poli_request depth ep data method).
Proof.
  revert ep data method; induction depth as [|d IH]; intros; simpl.
  - preserve.
  - apply poli_request_with_preserves, get_online_with_preserves.
    intros; apply IH.
Qed.

End NetworkPreserves.

#[global] Hint Extern 1 (NetworkFrame _) => typeclasses eauto : frame.
#[global] Hint Extern 1 (ApplierFrame _) => typeclasses eauto : frame.
#[global] Hint Resolve close_connection_preserves request_preserves
  read_response_preserves send_sample_preserves poli_request_preserves
  : frame.

Section FetchPreserves.

Context (P : World -> World -> Prop) `{!NetworkFrame P}.

Lemma poli_post_preserves ep data :
  preserves P (SkelConnection.poli_post ep data).
Proof. apply poli_request_preserves; exact _. Qed.

Lemma poli_get_preserves ep data :
  preserves P (SkelConnection.poli_get ep data).
Proof. apply poli_request_preserves; exact _. Qed.

Hint Resolve poli_post_preserves poli_get_preserves : frame.

Lemma get_comments_preserves timestamp :
  preserves P (SkelConnection.get_comments timestamp).
Proof.
  unfold SkelConnection.get_comments, SkelConnection.prepare_endpoint,
    getitem.
  preserve.
Qed.

Lemma get_names_preserves timestamp :
  preserves P (SkelConnection.get_names timestamp).
Proof.
  unfold SkelConnection.get_names, SkelConnection.prepare_endpoint, getitem.
  preserve.
Qed.

End FetchPreserves.

#[global] Hint Resolve poli_post_preserves poli_get_preserves
  get_comments_preserves get_names_preserves : frame.

Section ApplierPreserves.

Context (P : World -> World -> Prop) `{!ApplierFrame P}.

Lemma getitem_preserves v key : preserves P (getitem v key).
Proof. unfold getitem. preserve. Qed.

Lemma as_ea_preserves v : preserves P (as_ea v).
Proof. unfold as_ea. preserve. Qed.

Lemma encode_preserves enc v : preserves P (encode enc v).
Proof. unfold encode. preserve. Qed.

Hint Resolve getitem_preserves as_ea_preserves encode_preserves : frame.

Lemma execute_comment_preserves comment :
  preserves P (SkelUtils.execute_comment comment).
Proof.
  unfold SkelUtils.execute_comment, idaapi.execute_sync, idc.Comment,
    idc.RptCmt, idc.MakeRptCmt.
  preserve.
Qed.

Lemma get_name_preserves name : preserves P (SkelUtils.get_name name).
Proof. unfold SkelUtils.get_name, idc.GetTrueName. preserve. Qed.

Hint Resolve get_name_preserves : frame.

Lemma make_name_preserves name force :
  preserves P (SkelUtils.make_name name force).
Proof.
  unfold SkelUtils.make_name, SkelUtils.sync_ask_rename,
    SkelUtils.format_replace, idaapi.execute_sync, idc.AskYN, idc.MakeName.
  preserve.
Qed.

Hint Resolve make_name_preserves : frame.

Lemma execute_rename_preserves name :
  preserves P (SkelUtils.execute_rename name).
Proof. unfold SkelUtils.execute_rename. preserve. Qed.

End ApplierPreserves.

#[global] Hint Resolve getitem_preserves as_ea_preserves encode_preserves
  execute_comment_preserves get_name_preserves make_name_preserves
  execute_rename_preserves : frame.

(** *** The frames in use *)

Lemma calls_emit (e : event) (w : World) :
  calls (emit e w) = (calls w ++ if is_call e then [e] else [])%list.
Proof.
  unfold calls, emit; simpl. rewrite List.filter_app. simpl.
  now destruct (is_call e).
Qed.

#[global] Instance network_only_frame : NetworkFrame network_only.
Proof.
  split; [split|..]; unfold network_only; simpl; intros; try tauto.
  destruct H, H0; split; congruence.
Qed.

#[global] Instance applier_only_frame : ApplierFrame applier_only.
Proof.
  split; [split|..]; unfold applier_only; simpl; intros; try tauto.
  destruct H as (? & ? & ?), H0 as (? & ? & ?); repeat split; congruence.
Qed.

#[global] Instance same_calls_network : NetworkFrame same_calls.
Proof.
  split; [split|..]; unfold same_calls; intros; try reflexivity.
  - congruence.
  - rewrite calls_emit, H. apply app_nil_r.
Qed.

#[global] Instance same_calls_applier : ApplierFrame same_calls.
Proof.
  split; [split|..]; unfold same_calls; intros; try reflexivity.
  - congruence.
  - rewrite calls_emit, H. apply app_nil_r.
Qed.

#[global] Instance keeps_handle_frame : NetworkFrame keeps_handle.
Proof.
  split; [split|..]; unfold keeps_handle; simpl; intros; auto;
    discriminate.
Qed.

(** ** Type strings *)

Section ParseType.

Local Open Scope string_scope.

Lemma patch_conventions_absent typestr named convs acc :
  (forall conv, In conv convs -> contains conv typestr = false) ->
  SkelUtils.patch_conventions typestr named convs acc = acc.
Proof.
  unfold SkelUtils.patch_conventions.
  revert acc; induction convs as [|conv convs IH]; intros acc H; simpl.
  - reflexivity.
  - rewrite (H conv) by (now left). apply IH. intros c Hc; apply H; now right.
Qed.

Lemma push_type_calls address mtype w :
  calls (snd (SkelConnection.push_type address mtype w))
  = (calls w ++ [CallPushType address mtype])%list.
Proof.
  unfold SkelConnection.push_type.
  match goal with
  | |- calls (snd (bind (modify ?f) ?k w)) = _ =>
      change (bind (modify f) k w) with (k tt (f w));
      assert (Hk : preserves same_calls (k tt));
      [ | transitivity (calls (f w)); [exact (Hk (f w)) | apply calls_emit] ]
  end.
  unfold SkelConnection.prepare_endpoint, getitem. preserve.
Qed.

(** C10: a type string that holds none of the calling-convention markers
    (neither a function-pointer form nor a plain one) is turned into
    [None] by [prepare_parse_type], whatever the name at the address; and
    the [SetType] branch of [postprocess] then calls [push_type] with
    [None] in place of the type. *)
Theorem prepare_parse_type_drops_plain_type typestr addr w :
  (forall conv,
      In conv (SkelUtils.fpconventions ++ SkelUtils.cconventions)%list ->
      contains conv typestr = false) ->
  SkelUtils.prepare_parse_type typestr addr w = (Ok None, w) /\
  (types (ida w) !! addr = Some typestr ->
   calls (snd (SkelHooks.postprocess (SkelHooks.mkUIHook "SetType" addr) w))
   = (calls w ++ [CallPushType addr PNone])%list).
Proof.
  intros H.
  assert (E : SkelUtils.prepare_parse_type typestr addr w = (Ok None, w)).
  { unfold SkelUtils.prepare_parse_type, idc.GetTrueName, bind, get, ret.
    rewrite !patch_conventions_absent; [reflexivity|..];
      intros conv Hc; apply H, in_or_app; auto. }
  split; [exact E|]. intros Ht.
  unfold SkelHooks.postprocess.
  change (contains "MakeComment" (SkelHooks.cmdname _)) with false.
  change (contains "MakeRptCmt" (SkelHooks.cmdname _)) with false.
  change (String.eqb (SkelHooks.cmdname _) "MakeFunction") with false.
  change (String.eqb (SkelHooks.cmdname _) "DeclareStructVar") with false.
  change (String.eqb (SkelHooks.cmdname _) "SetType") with true.
  cbv iota. change (SkelHooks.addr _) with addr.
  unfold try_except, bind at 1 2 3, idc.GetType, get. rewrite Ht, E.
  unfold bind at 1. change (of_str None) with PNone.
  rewrite <- push_type_calls.
  destruct (SkelConnection.push_type addr PNone w) as [[v|e] w1]; simpl;
    [reflexivity|].
  now destruct e.
Qed.

(** A plain [int] at 0x402000, named [dword_402000]. *)
Lemma prepare_parse_type_drops_plain_type_witness :
  let w := Sample.world Sample.says_yes Sample.online
             (Sample.server Sample.accepted) in
  SkelUtils.prepare_parse_type "int" 4202496 w = (Ok None, w) /\
  calls (snd (SkelHooks.postprocess
                (SkelHooks.mkUIHook "SetType" 4202496) w))
  = [CallPushType 4202496 PNone].
Proof.
  intros w.
  destruct (prepare_parse_type_drops_plain_type "int" 4202496 w)
    as [Hnone Hpush].
  - intros conv Hc. simpl in Hc.
    repeat (destruct Hc as [<-|Hc]; [reflexivity|]). destruct Hc.
  - split; [exact Hnone | apply Hpush; reflexivity].
Defined.

End ParseType.

(** ** Pushing names and comments *)

Section Push.

Local Open Scope string_scope.

Lemma push_name_calls address name w :
  calls (snd (SkelConnection.push_name address name w))
  = (calls w ++ [CallPushName address name])%list.
Proof.
  unfold SkelConnection.push_name.
  match goal with
  | |- calls (snd (bind (modify ?f) ?k w)) = _ =>
      change (bind (modify f) k w) with (k tt (f w));
      assert (Hk : preserves same_calls (k tt));
      [ | transitivity (calls (f w)); [exact (Hk (f w)) | apply calls_emit] ]
  end.
  unfold SkelConnection.prepare_endpoint, getitem. preserve.
Qed.

Lemma push_comment_calls address comment w :
  calls (snd (SkelConnection.push_comment address comment w))
  = (calls w ++ [CallPushComment address comment])%list.
Proof.
  unfold SkelConnection.push_comment.
  match goal with
  | |- calls (snd (bind (modify ?f) ?k w)) = _ =>
      change (bind (modify f) k w) with (k tt (f w));
      assert (Hk : preserves same_calls (k tt));
      [ | transitivity (calls (f w)); [exact (Hk (f w)) | apply calls_emit] ]
  end.
  unfold SkelConnection.prepare_endpoint, getitem. preserve.
Qed.

(** Whatever the server answers, a call of [push_name] that returns,
    returns [True] for a name that is not [None]. *)
Lemma push_name_returns_true address name w v w' :
  name <> PNone ->
  SkelConnection.push_name address name w = (Ok v, w') ->
  v = PBool true.
Proof.
  intros Hname. unfold SkelConnection.push_name.
  destruct name; try congruence;
    unfold bind at 1; cbn [modify];
    unfold bind at 1;
    (destruct (SkelConnection.prepare_endpoint _ _) as [[ep|e] w1];
     [|discriminate]);
    unfold bind at 1;
    (destruct (SkelConnection.poli_post _ _ _) as [[res|e] w2];
     [|discriminate]);
    unfold bind at 1;
    (destruct (getitem _ _ _) as [[r|e] w3]; [|discriminate]);
    unfold bind, ret;
    (destruct (truthy r); cbn; intros [= <- _]; reflexivity).
Qed.

(** C9: the server rejects the push (its answer is [{"result": false}]);
    [push_comment] returns the flag of the answer, [False], and logs the
    failure; [push_name] logs the failure too, and returns [True]. *)
Theorem push_name_ignores_rejection :
  let w := Sample.world Sample.says_yes Sample.online
             (Sample.server Sample.rejected) in
  fst (SkelConnection.push_comment 4198400 (PStr "entry point") w)
  = Ok (PBool false) /\
  fst (SkelConnection.push_name 4198400 (PStr "ParseHeader") w)
  = Ok (PBool true) /\
  trace (snd (SkelConnection.push_name 4198400 (PStr "ParseHeader") w))
  = [CallPushName 4198400 (PStr "ParseHeader");
     EvRequest "POST" (EpSample "/api/1.0/" (PInt 7) "names" None)
       (PDict [("address", PInt 4198400); ("name", PStr "ParseHeader")]);
     EvLog ERROR "failed to send name %s"].
Proof. vm_compute. repeat split. Qed.

(** C7: [renamed] enters [push_name] once, with the address and the new
    name, when the address lies between [MinEA] and [MaxEA], the name is
    not a local one and [name_blacklist] lets it through; in every other
    case it enters no method of the connection. Outside the program it
    logs the warning and sends nothing; for a local name it sends
    nothing. *)
Theorem renamed_pushes_iff ea new_name is_local_name w :
  let in_range := (MinEA (ida w) <=? ea)%Z && (ea <=? MaxEA (ida w))%Z in
  let w' := snd (SkelHooks.renamed ea new_name is_local_name w) in
  calls w'
  = (calls w ++
     if in_range && negb is_local_name
        && negb (SkelUtils.name_blacklist new_name)
     then [CallPushName ea (PStr new_name)]
     else [])%list
  /\ (in_range = false ->
      SkelHooks.renamed ea new_name is_local_name w
      = (Ok 0%Z,
         emit (EvLog WARNING "ea outside program...")
           (emit (EvLog DEBUG "[IDB Hook] Something is renamed") w)))
  /\ (in_range && negb is_local_name
      && negb (SkelUtils.name_blacklist new_name) = false ->
      net w' = net w /\ conn w' = conn w).
Proof.
  cbv zeta.
  unfold SkelHooks.renamed, g_logger, bind, get, modify, ret.
  cbn [emit ida].
  set (w0 := emit (EvLog DEBUG "[IDB Hook] Something is renamed") w).
  assert (E0 : calls w0 = calls w).
  { unfold w0. rewrite calls_emit. apply app_nil_r. }
  destruct ((MinEA (ida w) <=? ea)%Z && (ea <=? MaxEA (ida w))%Z);
    cbn [andb].
  - destruct is_local_name; cbn [negb andb].
    + cbn [snd]. rewrite app_nil_r. repeat split; try discriminate.
      exact E0.
    + destruct (SkelUtils.name_blacklist new_name); cbn [negb].
      * cbn [snd]. rewrite app_nil_r. repeat split; try discriminate.
        exact E0.
      * repeat split; try discriminate.
        rewrite <- E0, <- push_name_calls.
        now destruct (SkelConnection.push_name ea (PStr new_name) w0)
          as [[v|e] w1].
  - cbn [snd]. rewrite app_nil_r. repeat split.
    rewrite calls_emit. cbn [is_call]. rewrite app_nil_r. exact E0.
Qed.

(** The scenario of the specification: [sub_4010A0] is renamed to
    [ParseHeader]; one request carries the name to the server. *)
Example renamed_ParseHeader :
  trace (snd (SkelHooks.renamed 4198560 "ParseHeader" false
                (Sample.world Sample.says_yes Sample.online
                   (Sample.server Sample.accepted))))
  = [EvLog DEBUG "[IDB Hook] Something is renamed";
     CallPushName 4198560 (PStr "ParseHeader");
     EvRequest "POST" (EpSample "/api/1.0/" (PInt 7) "names" None)
       (PDict [("address", PInt 4198560); ("name", PStr "ParseHeader")]);
     EvLog DEBUG "sent name %s at 0x%x"].
Proof. vm_compute. reflexivity. Qed.

End Push.

(** ** Comments *)

Section Comments.

Local Open Scope string_scope.

Lemma lower_app (a b : bytes) : lower (a ++ b) = lower a ++ lower b.
Proof. induction a as [|c a IH]; simpl; [reflexivity | now rewrite IH]. Qed.

Lemma prefix_app (p r : bytes) : String.prefix p (p ++ r) = true.
Proof.
  induction p as [|c p IH]; simpl; [now destruct r|].
  destruct (ascii_dec c c); [exact IH | congruence].
Qed.

Lemma starts_with_ignoring_case_iff (text stem : bytes) :
  starts_with_ignoring_case text stem <->
  startswith (lower text) (lower stem) = true.
Proof.
  unfold starts_with_ignoring_case, startswith. split.
  - intros (head & rest & -> & E). rewrite lower_app, E. apply prefix_app.
  - revert text; induction stem as [|a stem IH]; intros text H.
    + exists "", text. split; reflexivity.
    + destruct text as [|c text]; [discriminate|]. simpl in H.
      destruct (ascii_dec (lower_ascii a) (lower_ascii c)) as [E|];
        [|discriminate].
      destruct (IH text H) as (head & rest & -> & E').
      exists (String c head), rest. split; [reflexivity|].
      simpl. now rewrite E', E.
Qed.

Lemma unicode_eqb_eq (u v : unicode) : unicode_eqb u v = true -> u = v.
Proof.
  revert v; induction u as [|a u IH]; intros [|b v]; simpl;
    try discriminate; [reflexivity|].
  intros H. apply andb_true_iff in H as [E H].
  apply N.eqb_eq in E. f_equal; [exact E | now apply IH].
Qed.

Lemma encode_replace_decode (s : bytes) (u : unicode) :
  decode_ascii s = Some u -> encode_replace u = s.
Proof.
  revert u; induction s as [|c s IH]; intros u; simpl.
  - now intros [= <-].
  - destruct (is_ascii c) eqn:Ec; [|discriminate].
    destruct (decode_ascii s) as [v|]; [|discriminate].
    intros [= <-]. simpl. unfold is_ascii in Ec. unfold is_ascii_cp.
    rewrite Ec, ascii_N_embedding, (IH v); reflexivity.
Qed.

(** A comment equal to the incoming text is the text as it would be
    written. *)
Lemma str_eq_encode_replace (s : bytes) (u : unicode) :
  str_eq (Some s) (PUnicode u) = true -> s = encode_replace u.
Proof.
  unfold str_eq, bytes_eq_unicode.
  destruct (decode_ascii s) as [v|] eqn:E; [|discriminate].
  intros H. apply unicode_eqb_eq in H as <-.
  symmetry. now apply encode_replace_decode.
Qed.

Lemma filter_coms_blacklist_stem text stem w :
  In stem SkelUtils.black_list ->
  starts_with_ignoring_case text stem ->
  SkelUtils.filter_coms_blacklist (Some text) w
  = (Ok true, emit (EvLog DEBUG "Comment %s has been blacklisted") w).
Proof.
  intros Hin Hci. unfold SkelUtils.filter_coms_blacklist.
  assert (E : existsb (fun elem => startswith (lower text) (lower elem))
                SkelUtils.black_list = true).
  { apply existsb_exists. exists stem. split; [exact Hin|].
    now apply starts_with_ignoring_case_iff. }
  rewrite E. reflexivity.
Qed.

(** What [execute_comment] does with an annotation. *)
Lemma execute_comment_run comment ea u w :
  annotation_of comment = Some (ea, u) ->
  SkelUtils.execute_comment comment w
  = (Ok tt,
     if str_eq (cmts (ida w) !! ea) (PUnicode u)
        || str_eq (rpt_cmts (ida w) !! ea) (PUnicode u)
     then w
     else written ea (encode_replace u) w).
Proof.
  unfold annotation_of. destruct comment as [| | | | | |kv]; try discriminate.
  destruct (assoc "address" kv) as [[| |a| | | |]|] eqn:Ea; try discriminate.
  destruct (assoc "data" kv) as [[| | | |d| |]|] eqn:Ed; try discriminate.
  intros [= -> ->].
  unfold SkelUtils.execute_comment, getitem. rewrite Ea, Ed.
  unfold bind at 1; cbn [ret]. unfold bind at 1; cbn [as_ea ret].
  unfold bind at 1, idc.Comment; cbn [get]. unfold bind at 1; cbn [ret].
  destruct (str_eq (cmts (ida w) !! ea) (PUnicode u)); cbn [negb orb andb].
  - reflexivity.
  - unfold bind at 1, idc.RptCmt; cbn [get].
    destruct (str_eq (rpt_cmts (ida w) !! ea) (PUnicode u)); reflexivity.
Qed.

(** C3: a comment whose text starts, without regard to case, with a stem
    of the black list is marked by [filter_coms_blacklist], and the hook
    [cmt_changed] then logs it and pushes nothing. The sync loop has no
    filter: the applier it calls on each fetched comment writes such a
    text, like any other, when it differs from both comments at the
    address. *)
Theorem boilerplate_comment_filtered_by_hook_only text stem
    (Hstem : In stem SkelUtils.black_list)
    (Hci : starts_with_ignoring_case text stem) :
  (forall w,
      SkelUtils.filter_coms_blacklist (Some text) w
      = (Ok true, emit (EvLog DEBUG "Comment %s has been blacklisted") w)) /\
  (forall (w : World) (addr : Z) (rpt : bool),
      (if rpt then rpt_cmts (ida w) !! addr else cmts (ida w) !! addr)
      = Some text ->
      SkelHooks.cmt_changed addr rpt w
      = (Ok 0%Z, emit (EvLog DEBUG "Comment %s has been blacklisted") w)) /\
  (forall (w : World) (comment : pyval) (ea : Z) (u : unicode),
      annotation_of comment = Some (ea, u) ->
      decode_ascii text = Some u ->
      str_eq (cmts (ida w) !! ea) (PUnicode u) = false ->
      str_eq (rpt_cmts (ida w) !! ea) (PUnicode u) = false ->
      SkelUtils.execute_comment comment w = (Ok tt, written ea text w)).
Proof.
  split; [|split].
  - intros w. now apply (filter_coms_blacklist_stem text stem).
  - intros w addr rpt Hcmt.
    unfold SkelHooks.cmt_changed. unfold bind at 1.
    assert (E : (if rpt then idc.RptCmt addr else idc.Comment addr) w
                = (Ok (Some text), w)).
    { destruct rpt; unfold idc.RptCmt, idc.Comment, get; now rewrite Hcmt. }
    rewrite E. unfold bind at 1.
    rewrite (filter_coms_blacklist_stem text stem w Hstem Hci).
    reflexivity.
  - intros w comment ea u Ha Hu H1 H2.
    rewrite (execute_comment_run comment ea u w Ha), H1, H2.
    now rewrite (encode_replace_decode text u Hu).
Qed.

(** The comment ["int x"]: the hook keeps it from the server, the applier
    writes it at 0x401000. *)
Lemma boilerplate_comment_filtered_by_hook_only_witness :
  let w := Sample.world Sample.says_yes Sample.online
             (Sample.server Sample.accepted) in
  SkelUtils.filter_coms_blacklist (Some "int x") w
  = (Ok true, emit (EvLog DEBUG "Comment %s has been blacklisted") w) /\
  SkelHooks.cmt_changed 4202496 false w
  = (Ok 0%Z, emit (EvLog DEBUG "Comment %s has been blacklisted") w) /\
  SkelUtils.execute_comment
    (Sample.annotation 4198400 "int x" "2017-03-01T10:00:05.000000+00:00") w
  = (Ok tt, written 4198400 "int x" w).
Proof.
  intros w.
  destruct (boilerplate_comment_filtered_by_hook_only "int x" "int")
    as (Hfilter & Hhook & Happly).
  - right; left; reflexivity.
  - exists "int", " x". split; reflexivity.
  - split; [apply Hfilter|split].
    + apply Hhook. reflexivity.
    + apply (Happly w _ 4198400%Z (U "int x")); reflexivity.
Defined.

(** The server returns the comment ["int x"] for 0x401000; [sync_names]
    writes it into the database, though the filter marks it. *)
Lemma sync_names_writes_boilerplate :
  let w := Sample.world Sample.says_yes Sample.online
             (Sample.fetched
                [Sample.annotation 4198400 "int x"
                   "2017-03-01T10:00:05.000000+00:00"] []) in
  let w' := snd (SkelSyncAgent.sync_names Sample.strptime w) in
  fst (SkelUtils.filter_coms_blacklist (Some "int x") w) = Ok true /\
  fst (SkelSyncAgent.sync_names Sample.strptime w) = Ok (PBool true) /\
  rpt_cmts (ida w) !! 4198400%Z = None /\
  rpt_cmts (ida w') !! 4198400%Z = Some "int x" /\
  trace w'
  = [EvRequest "GET" (EpSample "/api/1.0/" (PInt 7) "comments" (Some 0%Z))
       PNone;
     EvRequest "GET" (EpSample "/api/1.0/" (PInt 7) "names" (Some 0%Z))
       PNone;
     EvLog DEBUG "[x] Adding comment %s @ 0x%x ";
     EvExecuteSync MFF_WRITE;
     EvMakeRptCmt 4198400 "int x"].
Proof. vm_compute. repeat split. Qed.

End Comments.

(** ** Applying a batch of comments twice *)

Section Idempotence.

Lemma lookup_rpt_step cm r c k :
  rpt_step cm r c !! k
  = match last_write cm [c] k with
    | Some s => Some s
    | None => r !! k
    end.
Proof.
  unfold rpt_step; simpl.
  destruct (annotation_of c) as [[ea u]|]; [|reflexivity].
  destruct (str_eq (cm !! ea) (PUnicode u)); simpl; [reflexivity|].
  rewrite lookup_insert.
  destruct (Z.eqb_spec ea k); case_decide; congruence.
Qed.

Lemma lookup_fold_rpt_step cm batch r k :
  fold_left (rpt_step cm) batch r !! k
  = match last_write cm batch k with
    | Some s => Some s
    | None => r !! k
    end.
Proof.
  revert r; induction batch as [|c rest IH]; intros r; [reflexivity|].
  cbn [fold_left]. rewrite IH. cbn [last_write].
  destruct (last_write cm rest k); [reflexivity|].
  apply lookup_rpt_step.
Qed.

(** A second pass stores what the first pass has stored. *)
Lemma fold_rpt_step_idempotent cm batch r :
  fold_left (rpt_step cm) batch (fold_left (rpt_step cm) batch r)
  = fold_left (rpt_step cm) batch r.
Proof.
  apply map_eq; intros k. rewrite !lookup_fold_rpt_step.
  now destruct (last_write cm batch k).
Qed.

Lemma ida_execute_comment c ea u w :
  annotation_of c = Some (ea, u) ->
  ida (snd (SkelUtils.execute_comment c w))
  = set_rpt_cmts (rpt_step (cmts (ida w)) (rpt_cmts (ida w)) c) (ida w).
Proof.
  intros Ha. rewrite (execute_comment_run c ea u w Ha).
  unfold rpt_step. rewrite Ha. cbn [snd].
  destruct (str_eq (cmts (ida w) !! ea) (PUnicode u)); cbn [orb].
  - now destruct (ida w).
  - destruct (str_eq (rpt_cmts (ida w) !! ea) (PUnicode u)) eqn:E.
    + destruct (rpt_cmts (ida w) !! ea) as [s|] eqn:Er; [|discriminate].
      apply str_eq_encode_replace in E as <-.
      rewrite insert_id by exact Er. now destruct (ida w).
    + reflexivity.
Qed.

Lemma ida_apply_comments batch w :
  Forall (fun c => annotation_of c <> None) batch ->
  fst (apply_comments batch w) = Ok tt /\
  ida (snd (apply_comments batch w))
  = set_rpt_cmts
      (fold_left (rpt_step (cmts (ida w))) batch (rpt_cmts (ida w))) (ida w).
Proof.
  unfold apply_comments.
  intros H; revert w; induction H as [|c rest Hc _ IH]; intros w.
  - split; [reflexivity | cbn; now destruct (ida w)].
  - destruct (annotation_of c) as [[ea u]|] eqn:Ha; [|congruence].
    pose proof (ida_execute_comment c ea u w Ha) as Hi.
    cbn [for_each fold_left]. unfold bind.
    rewrite (execute_comment_run c ea u w Ha) in *. cbn [snd] in Hi.
    match goal with
    | |- context [for_each rest _ ?w1] =>
        destruct (IH w1) as [IH1 IH2]; rewrite Hi in IH2; cbn in IH2
    end.
    split; [exact IH1|]. rewrite IH2. reflexivity.
Qed.

(** C4: a batch of comment annotations applied a second time leaves the
    database as the first application left it, and both applications
    return. For each annotation, [execute_comment] changes nothing when
    the text equals the plain or the repeatable comment at the address;
    otherwise it schedules one synchronized write ([MFF_WRITE]) of the
    repeatable comment. *)
Theorem apply_comments_idempotent batch w :
  Forall (fun c => annotation_of c <> None) batch ->
  let once := snd (apply_comments batch w) in
  let twice := snd (apply_comments batch once) in
  fst (apply_comments batch w) = Ok tt /\
  fst (apply_comments batch once) = Ok tt /\
  ida twice = ida once /\
  (forall (c : pyval) (ea : Z) (u : unicode) (w0 : World),
      annotation_of c = Some (ea, u) ->
      SkelUtils.execute_comment c w0
      = (Ok tt,
         if str_eq (cmts (ida w0) !! ea) (PUnicode u)
            || str_eq (rpt_cmts (ida w0) !! ea) (PUnicode u)
         then w0
         else written ea (encode_replace u) w0)).
Proof.
  intros H once twice. subst twice once.
  destruct (ida_apply_comments batch w H) as [R1 I1].
  destruct (ida_apply_comments batch (snd (apply_comments batch w)) H)
    as [R2 I2].
  repeat split; [exact R1 | exact R2 | | apply execute_comment_run].
  rewrite I2, I1. cbn [cmts rpt_cmts set_rpt_cmts].
  now rewrite fold_rpt_step_idempotent.
Qed.

(** Two comments for 0x401000 and one, already there, for 0x402000. *)
Lemma apply_comments_idempotent_witness :
  let batch :=
    [Sample.annotation 4198400 "parses the header"
       "2017-03-01T10:00:05.000000+00:00";
     Sample.annotation 4202496 "int x" "2017-03-01T10:00:06.000000+00:00";
     Sample.annotation 4198400 "entry point"
       "2017-03-01T10:00:07.000000+00:00"] in
  let w := Sample.world Sample.says_yes Sample.online
             (Sample.server Sample.accepted) in
  let once := snd (apply_comments batch w) in
  fst (apply_comments batch w) = Ok tt /\
  fst (apply_comments batch once) = Ok tt /\
  ida (snd (apply_comments batch once)) = ida once /\
  rpt_cmts (ida once) !! 4198400%Z = Some "entry point"%string.
Proof.
  intros batch w once.
  destruct (apply_comments_idempotent batch w) as (H1 & H2 & H3 & _).
  - repeat constructor; discriminate.
  - split; [exact H1|]. split; [exact H2|]. split; [exact H3|].
    vm_compute. reflexivity.
Defined.

End Idempotence.

(** ** Renaming *)

Section Rename.

Local Open Scope string_scope.

Lemma unicode_eqb_refl (u : unicode) : unicode_eqb u u = true.
Proof.
  induction u as [|n u IH]; simpl; [reflexivity|].
  now rewrite N.eqb_refl.
Qed.

Lemma decode_encode_ignore (u : unicode) :
  all_ascii u = true -> decode_ascii (encode_ignore u) = Some u.
Proof.
  induction u as [|n u IH]; simpl; [reflexivity|].
  intros H. apply andb_true_iff in H as [Hn Hu].
  rewrite Hn. simpl. unfold is_ascii, is_ascii_cp in *.
  apply N.ltb_lt in Hn.
  rewrite N_ascii_embedding by lia.
  destruct (n <? 128)%N eqn:E; [|apply N.ltb_ge in E; lia].
  now rewrite (IH Hu).
Qed.

Lemma str_eq_encode_ignore (u : unicode) :
  all_ascii u = true -> str_eq (Some (encode_ignore u)) (PUnicode u) = true.
Proof.
  intros H. unfold str_eq, bytes_eq_unicode.
  rewrite (decode_encode_ignore u H). apply unicode_eqb_refl.
Qed.

Lemma annotation_items name ea u :
  annotation_of name = Some (ea, u) ->
  (forall w, getitem name "address" w = (Ok (PInt ea), w)) /\
  (forall w, getitem name "data" w = (Ok (PUnicode u), w)).
Proof.
  unfold annotation_of. destruct name as [| | | | | |kv]; try discriminate.
  destruct (assoc "address" kv) as [[| |a| | | |]|] eqn:Ea; try discriminate.
  destruct (assoc "data" kv) as [[| | | |d| |]|] eqn:Ed; try discriminate.
  intros [= -> ->]. unfold getitem. rewrite Ea, Ed. now split.
Qed.

Lemma get_name_run name ea u w :
  annotation_of name = Some (ea, u) ->
  SkelUtils.get_name name w = (Ok (names (ida w) !! ea), w).
Proof.
  intros Ha. destruct (annotation_items name ea u Ha) as [Haddr _].
  unfold SkelUtils.get_name. unfold bind at 1. rewrite Haddr. reflexivity.
Qed.

Lemma make_name_forced name ea u w :
  annotation_of name = Some (ea, u) ->
  SkelUtils.make_name name true w
  = (Ok tt, renamed_to ea (encode_ignore u) (emit (EvExecuteSync MFF_FAST) w)).
Proof.
  intros Ha. destruct (annotation_items name ea u Ha) as [Haddr Hdata].
  unfold SkelUtils.make_name, idaapi.execute_sync, SkelUtils.sync_ask_rename.
  unfold bind at 1; cbn [modify]. unfold bind at 1; cbn [ret].
  unfold bind at 1. rewrite (get_name_run name ea u _ Ha).
  unfold bind at 1. rewrite Haddr. unfold bind at 1. rewrite Hdata.
  reflexivity.
Qed.

Lemma make_name_asking name ea u current v w :
  annotation_of name = Some (ea, u) ->
  names (ida w) !! ea = Some current ->
  decode_ascii current = Some v ->
  SkelUtils.make_name name false w
  = (Ok tt,
     let w1 := asked_about (Some current) (PUnicode u)
                 (emit (EvExecuteSync MFF_FAST) w) in
     if (analyst (ida w) (asked (ida w)) =? 1)%Z
     then renamed_to ea (encode_ignore u) w1
     else w1).
Proof.
  intros Ha Hcur Hdec.
  destruct (annotation_items name ea u Ha) as [Haddr Hdata].
  unfold SkelUtils.make_name, idaapi.execute_sync, SkelUtils.sync_ask_rename.
  unfold bind at 1; cbn [modify]. unfold bind at 1. unfold bind at 1.
  rewrite (get_name_run name ea u _ Ha). cbn [emit ida]. rewrite Hcur.
  unfold bind at 1. rewrite Hdata.
  unfold bind at 1, SkelUtils.format_replace. rewrite Hdec. cbn [ret].
  unfold bind at 1, idc.AskYN. unfold bind at 1; cbn [get emit ida].
  unfold bind at 1; cbn [modify]. cbn [ret].
  fold (asked_about (Some current) (PUnicode u)
          (emit (EvExecuteSync MFF_FAST) w)).
  destruct (analyst (ida w) (asked (ida w)) =? 1)%Z; [|reflexivity].
  unfold bind at 1. rewrite (get_name_run name ea u _ Ha).
  unfold bind at 1. rewrite Haddr. unfold bind at 1. rewrite Hdata.
  reflexivity.
Qed.

(** C2, as the code has it. For an annotation with an ASCII text, at an
    address whose name is ASCII: a name that starts with [sub_] is
    overwritten, and the analyst is not asked; a name that does not start
    with [sub_] (be it [dword_...] or the like) and differs from the
    incoming one makes [execute_rename] ask, once, and the rename is
    applied when, and only when, the answer is yes (1). *)
Theorem execute_rename_policy name ea u current w :
  annotation_of name = Some (ea, u) ->
  names (ida w) !! ea = Some current ->
  (startswith current "sub_" = true ->
   all_ascii u = true ->
   SkelUtils.execute_rename name w
   = (Ok tt,
      renamed_to ea (encode_ignore u) (emit (EvExecuteSync MFF_FAST) w))
   /\ str_eq (Some (encode_ignore u)) (PUnicode u) = true) /\
  (startswith current "sub_" = false ->
   str_eq (Some current) (PUnicode u) = false ->
   decode_ascii current <> None ->
   SkelUtils.execute_rename name w
   = (Ok tt,
      let w1 := asked_about (Some current) (PUnicode u)
                  (emit (EvExecuteSync MFF_FAST) w) in
      if (analyst (ida w) (asked (ida w)) =? 1)%Z
      then renamed_to ea (encode_ignore u) w1
      else w1)).
Proof.
  intros Ha Hcur.
  destruct (annotation_items name ea u Ha) as [Haddr Hdata].
  split.
  - intros Hsub Hascii.
    pose proof (str_eq_encode_ignore u Hascii) as Heq.
    split; [|exact Heq].
    unfold SkelUtils.execute_rename.
    unfold bind at 1. rewrite (get_name_run name ea u w Ha), Hcur.
    unfold bind at 1. rewrite Hsub. cbn [when].
    rewrite (make_name_forced name ea u w Ha).
    unfold bind at 1. rewrite (get_name_run name ea u _ Ha).
    unfold bind at 1. rewrite Hdata.
    unfold renamed_to at 1. cbn [emit with_ida ida set_name names].
    rewrite lookup_insert_eq, Heq. reflexivity.
  - intros Hsub Hne Hdec.
    destruct (decode_ascii current) as [v|] eqn:Ev; [|congruence].
    unfold SkelUtils.execute_rename.
    unfold bind at 1. rewrite (get_name_run name ea u w Ha), Hcur.
    unfold bind at 1. rewrite Hsub. cbn [when ret].
    unfold bind at 1. rewrite (get_name_run name ea u w Ha), Hcur.
    unfold bind at 1. rewrite Hdata, Hne. cbn [negb when].
    apply (make_name_asking name ea u current v w Ha Hcur Ev).
Qed.

(** The function at 0x401000 is still [sub_401000]: it takes the incoming
    name and nobody is asked. The function at 0x403000 has been named
    [ParseHeader]: the analyst is asked, says yes, and it is renamed. *)
Lemma execute_rename_policy_witness :
  let w := Sample.world Sample.says_yes Sample.online
             (Sample.server Sample.accepted) in
  let stamp := "2017-03-01T10:00:05.000000+00:00" in
  SkelUtils.execute_rename (Sample.annotation 4198400 "ParseHeader" stamp) w
  = (Ok tt, renamed_to 4198400 "ParseHeader" (emit (EvExecuteSync MFF_FAST) w))
  /\
  SkelUtils.execute_rename (Sample.annotation 4206592 "parse_header" stamp) w
  = (Ok tt,
     renamed_to 4206592 "parse_header"
       (asked_about (Some "ParseHeader") (PUnicode (U "parse_header"))
          (emit (EvExecuteSync MFF_FAST) w))).
Proof.
  intros w stamp. split.
  - pose proof (execute_rename_policy
                  (Sample.annotation 4198400 "ParseHeader" stamp)
                  4198400 (U "ParseHeader") "sub_401000" w
                  eq_refl eq_refl) as [H _].
    exact (proj1 (H eq_refl eq_refl)).
  - pose proof (execute_rename_policy
                  (Sample.annotation 4206592 "parse_header" stamp)
                  4206592 (U "parse_header") "ParseHeader" w
                  eq_refl eq_refl) as [_ H].
    apply H; [reflexivity | reflexivity | discriminate].
Defined.

(** The word at 0x402000 has the generated name [dword_402000], which the
    name filter counts as a default: [execute_rename] asks the analyst,
    who says no, and the name stays. And [sub_401000] with an incoming
    name that is not ASCII is renamed to what is left of it and the
    analyst is asked all the same. *)
Lemma execute_rename_asks_for_default_name :
  let w := Sample.world Sample.says_no Sample.online
             (Sample.server Sample.accepted) in
  let stamp := "2017-03-01T10:00:05.000000+00:00" in
  let w1 := snd (SkelUtils.execute_rename
                   (Sample.annotation 4202496 "g_counter" stamp) w) in
  let accented :=
    PDict [("address", PInt 4198400);
           ("data", PUnicode (U "caf" ++ [233%N])%list);
           ("timestamp", PUnicode (U stamp))] in
  let w2 := snd (SkelUtils.execute_rename accented w) in
  (names (ida w) !! 4202496%Z = Some "dword_402000" /\
   SkelUtils.name_blacklist "dword_402000" = true /\
   startswith "dword_402000" "dword_" = true /\
   trace w1 = [EvExecuteSync MFF_FAST;
               EvAskYN (Some "dword_402000") (PUnicode (U "g_counter"))] /\
   names (ida w1) !! 4202496%Z = Some "dword_402000") /\
  (names (ida w) !! 4198400%Z = Some "sub_401000" /\
   trace w2 = [EvExecuteSync MFF_FAST;
               EvLog DEBUG "[x] renaming %s @ 0x%x as %s";
               EvMakeName 4198400 "caf";
               EvExecuteSync MFF_FAST;
               EvAskYN (Some "caf") (PUnicode (U "caf" ++ [233%N])%list)]).
Proof. vm_compute. repeat split. Qed.

End Rename.

(** ** The retry of [poli_request] *)

#[global] Instance extends_network : NetworkFrame extends.
Proof.
  split; [split|..]; unfold extends; simpl; intros.
  - exists []. now rewrite app_nil_r.
  - destruct H as [l Hl], H0 as [l' Hl']. exists (l ++ l')%list.
    now rewrite Hl', Hl, <- app_assoc.
  - now exists [e].
  - exists []. now rewrite app_nil_r.
  - exists []. now rewrite app_nil_r.
  - exists []. now rewrite app_nil_r.
  - exists []. now rewrite app_nil_r.
  - exists []. now rewrite app_nil_r.
Qed.

Section Retry.

Local Open Scope string_scope.

Lemma get_online_with_returns poli_get w :
  exists b, fst (SkelConnection.get_online_with poli_get w) = Ok b.
Proof.
  unfold SkelConnection.get_online_with, try_except.
  destruct ((SkelConnection.do_init_with poli_get;; ret true) w)
    as [[b|e] w1].
  - now exists b.
  - now exists false.
Qed.

Lemma close_connection_returns w :
  SkelConnection.close_connection w
  = (Ok tt, snd (SkelConnection.close_connection w)).
Proof.
  unfold SkelConnection.close_connection, g_logger, bind, get, modify, ret.
  cbn [emit conn]. now destruct (h_conn (conn w)).
Qed.

Lemma close_connection_trace w :
  exists rest,
    trace (snd (SkelConnection.close_connection w))
    = (trace w ++ EvLog DEBUG "Closing connection" :: rest)%list.
Proof.
  unfold SkelConnection.close_connection, g_logger, bind, get, modify, ret.
  cbn [emit conn]. destruct (h_conn (conn w)); cbn.
  - rewrite <- app_assoc. eexists; reflexivity.
  - eexists; reflexivity.
Qed.

Lemma reconnect_returns get_online w :
  (forall w0, exists b, fst (get_online w0) = Ok b) ->
  SkelConnection.reconnect get_online w
  = (Ok tt, snd (SkelConnection.reconnect get_online w)).
Proof.
  intros H.
  assert (E : fst (SkelConnection.reconnect get_online w) = Ok tt).
  { unfold SkelConnection.reconnect, g_logger, bind, modify, ret.
    rewrite close_connection_returns.
    match goal with
    | |- context [get_online ?w0] =>
        destruct (H w0) as [b Hb]; destruct (get_online w0) as [r w1];
        cbn [fst] in Hb; subst r; reflexivity
    end. }
  destruct (SkelConnection.reconnect get_online w) as [r w']; cbn in *.
  now subst r.
Qed.

Lemma read_response_sends_nothing x w :
  sent (net (snd (SkelConnection.read_response x w))) = sent (net w).
Proof.
  unfold SkelConnection.read_response, SkelConnection.getresponse.
  destruct x as [| | |status [body|]]; try reflexivity;
    cbn; destruct (status =? 200)%Z; reflexivity.
Qed.

(** C5: the first [request] fails with [CannotSendRequest]. The handler
    logs, closes the connection and reconnects; then the same request is
    sent once more, and that is the last one: if it fails again (again
    [CannotSendRequest], or a socket error) the exception leaves
    [poli_request], otherwise the response is read. *)
Theorem poli_request_retries_once depth ep data method w :
  is_online (conn w) = true ->
  h_conn (conn w) <> None ->
  exchanges (net w) (sent (net w)) = XCannotSend ->
  let get_online :=
    SkelConnection.get_online_with
      (fun ep' data' => SkelConnection.poli_request depth ep' data' "GET") in
  let sent_once := emit (EvRequest method ep data) (with_net next_request w) in
  let reconnected := snd (SkelConnection.reconnect get_online sent_once) in
  let sent_twice :=
    emit (EvRequest method ep data) (with_net next_request reconnected) in
  let outcome := SkelConnection.poli_request (S depth) ep data method w in
  outcome
  = match exchanges (net reconnected) (sent (net reconnected)) with
    | XCannotSend => (Raise CannotSendRequest, sent_twice)
    | XSendFail => (Raise SocketError, sent_twice)
    | x => SkelConnection.read_response x sent_twice
    end
  /\ sent (net (snd outcome)) = S (sent (net reconnected))
  /\ exists rest,
      trace reconnected
      = (trace w ++
         [EvRequest method ep data;
          EvLog ERROR "Error during request, retrying";
          EvLog DEBUG "Closing connection"] ++ rest)%list.
Proof.
  intros Honline Hconn Hx get_online sent_once reconnected sent_twice outcome.
  assert (Hrun : SkelConnection.reconnect get_online sent_once
                 = (Ok tt, reconnected)).
  { apply reconnect_returns. intros w0. apply get_online_with_returns. }
  assert (Hhandle : h_conn (conn reconnected) <> None).
  { assert (Hp : preserves keeps_handle
                   (SkelConnection.reconnect get_online)).
    { unfold SkelConnection.reconnect, get_online.
      preserve. apply get_online_with_preserves; [exact _|]. preserve. }
    apply (Hp sent_once). exact Hconn. }
  assert (Hout : outcome
    = match exchanges (net reconnected) (sent (net reconnected)) with
      | XCannotSend => (Raise CannotSendRequest, sent_twice)
      | XSendFail => (Raise SocketError, sent_twice)
      | x => SkelConnection.read_response x sent_twice
      end).
  { unfold outcome. cbn [SkelConnection.poli_request].
    fold get_online. unfold SkelConnection.poli_request_with.
    unfold bind at 1; cbn [get]. rewrite Honline. cbn [negb].
    unfold bind at 1, try_except.
    assert (E1 : SkelConnection.request method ep data w
                 = (Raise CannotSendRequest, sent_once)).
    { unfold SkelConnection.request. unfold bind at 1; cbn [get].
      destruct (h_conn (conn w)); [|congruence].
      unfold bind at 1; cbn [get]. rewrite Hx. reflexivity. }
    rewrite E1. cbn [exn_eqb]. unfold bind at 1. rewrite Hrun.
    unfold SkelConnection.request. unfold bind at 1; cbn [get].
    destruct (h_conn (conn reconnected)); [|congruence].
    unfold bind at 1; cbn [get].
    unfold bind at 1; cbn [modify]. fold sent_twice.
    destruct (exchanges (net reconnected) (sent (net reconnected)));
      reflexivity. }
  split; [exact Hout|]. split.
  - rewrite Hout.
    destruct (exchanges (net reconnected) (sent (net reconnected)));
      try reflexivity; apply read_response_sends_nothing.
  - assert (Hp : preserves extends get_online).
    { unfold get_online. apply get_online_with_preserves; [exact _|].
      preserve. }
    unfold reconnected, SkelConnection.reconnect, g_logger, bind, modify,
      ret.
    rewrite close_connection_returns.
    match goal with
    | |- context [SkelConnection.close_connection ?w0] =>
        destruct (close_connection_trace w0) as [l0 Hl0];
        set (closed := snd (SkelConnection.close_connection w0)) in *
    end.
    destruct (Hp closed) as [l Hl].
    destruct (get_online closed) as [r w1]. cbn [snd] in Hl.
    exists (l0 ++ l)%list.
    destruct r; cbn [snd]; rewrite Hl, Hl0; cbn [trace emit sent_once];
      rewrite <- !app_assoc; reflexivity.
Qed.

(** A stale connection: the first request cannot be sent; the reconnection
    looks the sample up again; the retried request meets a socket error,
    which [poli_post] raises after three requests in all. *)
Lemma poli_request_retries_once_witness :
  let w := Sample.world Sample.says_yes Sample.online
             (Sample.scripted
                [XCannotSend;
                 XResp 200 (Some (PDict [("sample_id", PInt 7)]));
                 XSendFail]) in
  let ep := EpSample "/api/1.0/" (PInt 7) "names" None in
  let data := PDict [("address", PInt 4198400); ("name", PStr "ParseHeader")] in
  fst (SkelConnection.poli_post ep data w) = Raise SocketError /\
  sent (net (snd (SkelConnection.poli_post ep data w))) = 3%nat /\
  trace (snd (SkelConnection.poli_post ep data w))
  = [EvRequest "POST" ep data;
     EvLog ERROR "Error during request, retrying";
     EvLog DEBUG "Closing connection";
     EvClose 0;
     EvLog INFO "Connecting using simple HTTP";
     EvConnect 1;
     EvRequest "GET" (EpSampleByHash "d41d8cd98f00b204e9800998ecf8427e") PNone;
     EvRequest "POST" ep data].
Proof.
  intros w ep data.
  pose proof (poli_request_retries_once 165 ep data "POST" w eq_refl)
    as H.
  destruct H as (Hout & Hsent & _); [discriminate | reflexivity |].
  change (SkelConnection.poli_post ep data w)
    with (SkelConnection.poli_request 166 ep data "POST" w).
  split; [|split].
  - rewrite Hout. vm_compute. reflexivity.
  - rewrite Hsent. vm_compute. reflexivity.
  - rewrite Hout. vm_compute. reflexivity.
Defined.

End Retry.

(** ** The watermark *)

#[global] Instance watermark_le_network : NetworkFrame watermark_le.
Proof.
  split; [split|..]; unfold watermark_le; simpl; intros; lia.
Qed.

#[global] Instance watermark_le_applier : ApplierFrame watermark_le.
Proof.
  split; [split|..]; unfold watermark_le; simpl; intros; lia.
Qed.

Section Watermark.

Variable strptime : pyval -> result Z.

Local Open Scope string_scope.

Lemma py_max_max (a b : Z) : SkelSyncAgent.py_max a b = Z.max a b.
Proof. unfold SkelSyncAgent.py_max. destruct (Z.gtb_spec b a); lia. Qed.

Lemma fold_right_max_init (t a : Z) (l : list Z) :
  fold_right Z.max (Z.max t a) l = Z.max t (fold_right Z.max a l).
Proof. induction l as [|x l IH]; simpl; [reflexivity | rewrite IH; lia]. Qed.

Lemma fold_py_max (l : list Z) (a : Z) :
  fold_left (fun acc t => SkelSyncAgent.py_max t acc) l a
  = fold_right Z.max a l.
Proof.
  revert a; induction l as [|t l IH]; intros a; simpl; [reflexivity|].
  now rewrite IH, py_max_max, fold_right_max_init.
Qed.

Lemma fold_right_max_permutation (a : Z) (l l' : list Z) :
  Permutation l l' -> fold_right Z.max a l = fold_right Z.max a l'.
Proof. induction 1; simpl; lia. Qed.

Lemma fold_right_max_app (a : Z) (l l' : list Z) :
  fold_right Z.max (fold_right Z.max a l) l' = fold_right Z.max a (l ++ l').
Proof.
  rewrite fold_right_app.
  induction l as [|x l IH]; simpl; [reflexivity|].
  now rewrite fold_right_max_init, IH.
Qed.

Lemma iterate_run v w : iterate v w = (fst (iterate v w), w).
Proof. now destruct v. Qed.

Lemma iterate_world v w w0 : fst (iterate v w) = fst (iterate v w0).
Proof. now destruct v. Qed.

Lemma advance_run item w :
  SkelSyncAgent.advance strptime item w
  = match timestamp_of strptime item with
    | Ok t => (Ok tt,
               with_last_timestamp
                 (SkelSyncAgent.py_max t (last_timestamp w)) w)
    | Raise e => (Raise e, w)
    end.
Proof.
  unfold SkelSyncAgent.advance, timestamp_of, getitem.
  destruct item as [| | | | | |kv]; try reflexivity.
  destruct (assoc "timestamp" kv) as [stamp|]; [|reflexivity].
  unfold bind at 1; cbn [ret]. unfold bind at 1.
  now destruct (strptime stamp).
Qed.

Lemma advance_preserves item :
  preserves watermark_le (SkelSyncAgent.advance strptime item).
Proof.
  intros w. rewrite advance_run. unfold watermark_le.
  destruct (timestamp_of strptime item); cbn; [|lia].
  rewrite py_max_max. lia.
Qed.

Lemma sync_names_preserves :
  preserves watermark_le (SkelSyncAgent.sync_names strptime).
Proof.
  pose proof advance_preserves.
  unfold SkelSyncAgent.sync_names, iterate. preserve.
Qed.

(** One loop of [sync_names] that runs to its end has read a timestamp in
    every item and has folded [max] over them. *)
Lemma loop_run (apply : pyval -> M unit) items w w' :
  (forall item, preserves applier_only (apply item)) ->
  for_each items
    (fun item => apply item ;; SkelSyncAgent.advance strptime item) w
  = (Ok tt, w') ->
  exists stamps,
    Forall2 (fun item t => timestamp_of strptime item = Ok t) items stamps /\
    last_timestamp w'
    = fold_left (fun acc t => SkelSyncAgent.py_max t acc) stamps
        (last_timestamp w).
Proof.
  intros Happly. revert w; induction items as [|item rest IH]; intros w.
  - cbn. intros [= <-]. exists []. split; [constructor | reflexivity].
  - cbn [for_each]. unfold bind at 1. unfold bind at 1.
    pose proof (Happly item w) as (_ & _ & Hmark).
    destruct (apply item w) as [[[]|e] wa]; [|discriminate].
    cbn [snd] in Hmark. rewrite advance_run.
    destruct (timestamp_of strptime item) as [t|e] eqn:Et; [|discriminate].
    intros Hrest. destruct (IH _ Hrest) as (stamps & Hall & Hlast).
    exists (t :: stamps). split; [now constructor|].
    rewrite Hlast. cbn. now rewrite Hmark.
Qed.

Lemma sync_names_true w w' :
  SkelSyncAgent.sync_names strptime w = (Ok (PBool true), w') ->
  exists cv w1 nv w2 comments names stamps,
    SkelConnection.get_comments (Some (last_timestamp w)) w = (Ok cv, w1) /\
    SkelConnection.get_names (Some (last_timestamp w)) w1 = (Ok nv, w2) /\
    fst (iterate cv w2) = Ok comments /\
    fst (iterate nv w2) = Ok names /\
    Forall2 (fun item t => timestamp_of strptime item = Ok t)
      (comments ++ names)%list stamps /\
    last_timestamp w' = fold_right Z.max (last_timestamp w) stamps.
Proof.
  unfold SkelSyncAgent.sync_names.
  unfold bind at 1; cbn [get].
  destruct (is_online (conn w)); cbn [negb]; [|discriminate].
  unfold bind at 1; cbn [get]. unfold bind at 1.
  pose proof (get_comments_preserves network_only
                (Some (last_timestamp w)) w) as [_ Hm1].
  destruct (SkelConnection.get_comments (Some (last_timestamp w)) w)
    as [[cv|e] w1]; [|discriminate].
  cbn [snd] in Hm1. unfold bind at 1; cbn [get]. rewrite Hm1.
  unfold bind at 1.
  pose proof (get_names_preserves network_only
                (Some (last_timestamp w)) w1) as [_ Hm2].
  destruct (SkelConnection.get_names (Some (last_timestamp w)) w1)
    as [[nv|e] w2] eqn:Hn; [|discriminate].
  cbn [snd] in Hm2. unfold bind at 1. rewrite (iterate_run cv w2).
  destruct (fst (iterate cv w2)) as [comments|e] eqn:Ec; [|discriminate].
  unfold bind at 1.
  destruct (for_each comments _ w2) as [[[]|e] w3] eqn:Hloop1;
    [|discriminate].
  unfold bind at 1. rewrite (iterate_run nv w3).
  rewrite (iterate_world nv w3 w2).
  destruct (fst (iterate nv w2)) as [names|e] eqn:En; [|discriminate].
  unfold bind at 1.
  destruct (for_each names _ w3) as [[[]|e] w4] eqn:Hloop2;
    [|discriminate].
  intros [= <-].
  apply loop_run in Hloop1 as (s1 & Hall1 & Hlast1);
    [|intros; apply execute_comment_preserves; exact _].
  apply loop_run in Hloop2 as (s2 & Hall2 & Hlast2);
    [|intros; apply execute_rename_preserves; exact _].
  exists cv, w1, nv, w2, comments, names, (s1 ++ s2)%list.
  split; [reflexivity|]. split; [exact Hn|].
  split; [exact Ec|]. split; [exact En|].
  split; [now apply Forall2_app|].
  rewrite Hlast2, Hlast1, !fold_py_max, Hm2, Hm1.
  apply fold_right_max_app.
Qed.

(** C1: whatever [sync_names] does, the watermark after it is not below
    the watermark before it; and when it returns [True], every fetched
    comment and name has given a timestamp, and the watermark is the
    maximum of the previous watermark and these timestamps, the same in
    whatever order the server returns them. *)
Theorem sync_names_watermark w :
  let w' := snd (SkelSyncAgent.sync_names strptime w) in
  (last_timestamp w <= last_timestamp w')%Z /\
  (fst (SkelSyncAgent.sync_names strptime w) = Ok (PBool true) ->
   exists cv w1 nv w2 comments names stamps,
     SkelConnection.get_comments (Some (last_timestamp w)) w = (Ok cv, w1) /\
     SkelConnection.get_names (Some (last_timestamp w)) w1 = (Ok nv, w2) /\
     fst (iterate cv w2) = Ok comments /\
     fst (iterate nv w2) = Ok names /\
     Forall2 (fun item t => timestamp_of strptime item = Ok t)
       (comments ++ names)%list stamps /\
     last_timestamp w' = fold_right Z.max (last_timestamp w) stamps /\
     forall stamps',
       Permutation stamps stamps' ->
       fold_left (fun acc t => SkelSyncAgent.py_max t acc) stamps'
         (last_timestamp w)
       = last_timestamp w').
Proof.
  intros w'. split; [apply sync_names_preserves|].
  subst w'.
  destruct (SkelSyncAgent.sync_names strptime w) as [r w'] eqn:Hrun.
  cbn [fst snd]. intros ->.
  destruct (sync_names_true w w' Hrun)
    as (cv & w1 & nv & w2 & comments & names & stamps
        & Hc & Hn & Ec & En & Hall & Hmax).
  exists cv, w1, nv, w2, comments, names, stamps.
  repeat (split; [assumption|]).
  intros stamps' Hperm.
  rewrite fold_py_max, Hmax. symmetry.
  now apply fold_right_max_permutation.
Qed.

End Watermark.

(** The server returns two comments and two names, not in the order of
    their timestamps. *)
Lemma sync_names_watermark_witness :
  let w := Sample.world Sample.says_yes Sample.online
             (Sample.fetched
                [Sample.annotation 4198400 "parses the header"
                   "2017-03-01T10:00:05.000000+00:00";
                 Sample.annotation 4202496 "counter"
                   "2017-03-01T10:00:03.000000+00:00"]
                [Sample.annotation 4198400 "ParseHeader"
                   "2017-03-01T10:00:07.000000+00:00";
                 Sample.annotation 4206592 "ParseHeader"
                   "2017-03-01T10:00:01.000000+00:00"]) in
  let w' := snd (SkelSyncAgent.sync_names Sample.strptime w) in
  fst (SkelSyncAgent.sync_names Sample.strptime w) = Ok (PBool true) /\
  (last_timestamp w <= last_timestamp w')%Z /\
  last_timestamp w' = 20170301100007000000%Z /\
  exists stamps,
    last_timestamp w' = fold_right Z.max (last_timestamp w) stamps /\
    forall stamps',
      Permutation stamps stamps' ->
      fold_left (fun acc t => SkelSyncAgent.py_max t acc) stamps'
        (last_timestamp w)
      = last_timestamp w'.
Proof.
  intros w w'.
  assert (Hrun : fst (SkelSyncAgent.sync_names Sample.strptime w)
                 = Ok (PBool true)) by (vm_compute; reflexivity).
  destruct (sync_names_watermark Sample.strptime w) as [Hle Hmax].
  destruct (Hmax Hrun)
    as (cv & w1 & nv & w2 & comments & names & stamps
        & _ & _ & _ & _ & _ & Hfold & Hperm).
  split; [exact Hrun|]. split; [exact Hle|].
  split; [vm_compute; reflexivity|].
  exists stamps. split; [exact Hfold | exact Hperm].
Defined.

(** ** Stopping the agent *)

Section Threads.

Import SkelSyncAgent.

Variable strptime : pyval -> result Z.

Lemma kill_statements s :
  killer s = NotCalled ->
  exec strptime [Killer; Killer; Killer; Killer] s = Some (kill s).
Proof. destruct s; cbn; intros ->; reflexivity. Qed.

Lemma stopping_step syncs0 n t s s' :
  stopping syncs0 n s ->
  step strptime t s = Some s' ->
  stopping syncs0 (match t with Worker => S n | _ => n end) s'.
Proof.
  unfold stopping. intros (Hk & Hs & Hn) Hstep.
  destruct t; cbn [step] in Hstep.
  - unfold run_step in Hstep.
    destruct n as [|[|[|[|n]]]]; try contradiction.
    + destruct Hn as [Hw Hu]. rewrite Hw, Hu in Hstep.
      injection Hstep as <-. cbn. auto.
    + rewrite Hn in Hstep. injection Hstep as <-. cbn. auto.
    + rewrite Hn, Hk in Hstep. injection Hstep as <-. cbn. auto.
    + rewrite Hn in Hstep. discriminate.
  - unfold update in Hstep.
    destruct (timer_registered s); [|discriminate].
    injection Hstep as <-. cbn.
    repeat split; try assumption.
    destruct n as [|[|[|[|n]]]]; try assumption. now destruct Hn.
  - unfold kill_step in Hstep.
    destruct (killer s); try discriminate; injection Hstep as <-; cbn;
      (repeat split; try assumption; try reflexivity);
      destruct n as [|[|[|[|n]]]]; try assumption;
      destruct Hn; auto.
Qed.

Lemma stopping_exec syncs0 schedule n s s' :
  stopping syncs0 n s ->
  exec strptime schedule s = Some s' ->
  stopping syncs0 (n + worker_steps schedule) s'.
Proof.
  revert n s; induction schedule as [|t rest IH]; intros n s Hinv Hexec.
  - cbn in Hexec. injection Hexec as <-.
    unfold worker_steps; cbn. now rewrite Nat.add_0_r.
  - cbn [exec] in Hexec.
    destruct (step strptime t s) as [s1|] eqn:Hstep; [|discriminate].
    pose proof (stopping_step syncs0 n t s s1 Hinv Hstep) as Hinv1.
    specialize (IH _ _ Hinv1 Hexec).
    unfold worker_steps in *. destruct t; cbn [List.filter length];
      try exact IH.
    now rewrite Nat.add_succ_r.
Qed.

(** Once the stop flag is set, no schedule starts a [sync_names] that the
    agent's thread had not already decided to run. *)
Lemma no_new_sync_after_kill_event schedule s s' :
  kill_event s = true ->
  worker s <> AtSyncNames ->
  exec strptime schedule s = Some s' ->
  kill_event s' = true /\ worker s' <> AtSyncNames /\ syncs s' = syncs s.
Proof.
  revert s; induction schedule as [|t rest IH]; intros s Hk Hw Hexec.
  - cbn in Hexec. injection Hexec as <-. auto.
  - cbn [exec] in Hexec.
    destruct (step strptime t s) as [s1|] eqn:Hstep; [|discriminate].
    assert (H1 : kill_event s1 = true /\ worker s1 <> AtSyncNames /\
                 syncs s1 = syncs s).
    { destruct t; cbn [step] in Hstep.
      - unfold run_step in Hstep.
        destruct (worker s) eqn:Ew; try congruence;
          try (destruct (timer_setup_flag s));
          try (destruct (update_event s); [|discriminate]);
          injection Hstep as <-; cbn; rewrite ?Hk;
          repeat split; auto; discriminate.
      - unfold update in Hstep.
        destruct (timer_registered s); [|discriminate].
        injection Hstep as <-. cbn. auto.
      - unfold kill_step in Hstep.
        destruct (killer s); try discriminate; injection Hstep as <-; cbn;
          auto. }
    destruct H1 as (Hk1 & Hw1 & Hs1).
    destruct (IH s1 Hk1 Hw1 Hexec) as (? & ? & ?).
    repeat split; auto; congruence.
Qed.

(** C8: [kill] sets the stop flag and the wake signal. With the agent's
    thread waiting on the signal when [kill] is called, whatever the other
    threads do afterwards, the thread is never blocked, it returns with
    its third statement (wake up, clear, see the stop flag) and
    [sync_names] is not called again. *)
Theorem kill_stops_the_worker s :
  kill_event (kill s) = true /\
  update_event (kill s) = true /\
  (worker s = AtWaitUpdate ->
   forall schedule s',
     exec strptime schedule (kill s) = Some s' ->
     syncs s' = syncs s /\
     (worker_steps schedule <= 3)%nat /\
     (worker_steps schedule = 3%nat <-> worker s' = Returned) /\
     (worker s' <> Returned -> run_step strptime s' <> None)).
Proof.
  split; [reflexivity|]. split; [reflexivity|].
  intros Hw schedule s' Hexec.
  assert (H0 : stopping (syncs s) 0 (kill s)).
  { unfold stopping, kill; cbn. repeat split; auto. }
  pose proof (stopping_exec _ schedule 0 _ s' H0 Hexec) as H.
  cbn [Nat.add] in H. destruct H as (Hk & Hs & Hn).
  destruct (worker_steps schedule) as [|[|[|[|n]]]]; try contradiction.
  - destruct Hn as [Hn Hu]. repeat split; try lia; try congruence.
    unfold run_step. rewrite Hn, Hu. discriminate.
  - repeat split; try lia; try congruence.
    unfold run_step. rewrite Hn. discriminate.
  - repeat split; try lia; try congruence.
    unfold run_step. rewrite Hn. discriminate.
  - repeat split; try lia; try congruence.
Qed.

End Threads.

(** Left alone after [kill], the thread of the sample agent returns
    without another cycle. *)
Example run_after_kill :
  let s := SkelSyncAgent.run Sample.strptime 10
             (SkelSyncAgent.kill Sample.waiting) in
  SkelSyncAgent.worker s = SkelSyncAgent.Returned /\
  SkelSyncAgent.syncs s = 2%nat.
Proof. vm_compute. split; reflexivity. Qed.

(** Without [kill], the timer wakes the thread and a cycle runs. *)
Example run_without_kill :
  let s := SkelSyncAgent.exec Sample.strptime
             [SkelSyncAgent.Timer; SkelSyncAgent.Worker;
              SkelSyncAgent.Worker; SkelSyncAgent.Worker;
              SkelSyncAgent.Worker]
             Sample.waiting in
  option_map SkelSyncAgent.syncs s = Some 3%nat /\
  option_map SkelSyncAgent.worker s = Some SkelSyncAgent.AtWaitUpdate.
Proof. vm_compute. split; reflexivity. Qed.

(** [kill] is called while the thread waits; the timer fires once more and
    the thread takes its three statements. *)
Lemma kill_stops_the_worker_witness :
  let schedule := [SkelSyncAgent.Timer; SkelSyncAgent.Worker;
                   SkelSyncAgent.Worker; SkelSyncAgent.Worker] in
  SkelSyncAgent.worker Sample.waiting = SkelSyncAgent.AtWaitUpdate /\
  exists s',
    SkelSyncAgent.exec Sample.strptime schedule
      (SkelSyncAgent.kill Sample.waiting) = Some s' /\
    SkelSyncAgent.syncs s' = 2%nat /\
    SkelSyncAgent.worker s' = SkelSyncAgent.Returned.
Proof.
  intros schedule. split; [reflexivity|].
  destruct (SkelSyncAgent.exec Sample.strptime schedule
              (SkelSyncAgent.kill Sample.waiting)) as [s'|] eqn:Hexec;
    [|vm_compute in Hexec; discriminate].
  exists s'. split; [reflexivity|].
  destruct (kill_stops_the_worker Sample.strptime Sample.waiting)
    as (_ & _ & H).
  destruct (H eq_refl schedule s' Hexec) as (Hsyncs & _ & Hret & _).
  split; [exact Hsyncs | apply Hret; reflexivity].
Defined.

(** * More properties of the connection *)

Section Connection.

Local Open Scope string_scope.

Lemma request_run method ep data w :
  h_conn (conn w) <> None ->
  SkelConnection.request method ep data w
  = (match exchanges (net w) (sent (net w)) with
     | XCannotSend => Raise CannotSendRequest
     | XSendFail => Raise SocketError
     | x => Ok x
     end,
     emit (EvRequest method ep data) (with_net next_request w)).
Proof.
  intros Hh. unfold SkelConnection.request. unfold bind at 1; cbn [get].
  destruct (h_conn (conn w)); [|congruence].
  unfold bind at 1; cbn [get]. unfold bind at 1; cbn [modify].
  now destruct (exchanges (net w) (sent (net w))).
Qed.

(** X2: a request that the connection can send is sent once, and nothing
    reconnects. A socket error or a failing [getresponse] leaves
    [poli_request] as it is; a response gives its decoded body whatever the
    status (a status other than 200 is logged), and [IOError] when the body
    does not decode. *)
Theorem poli_request_sends_once depth ep data method w :
  is_online (conn w) = true ->
  h_conn (conn w) <> None ->
  exchanges (net w) (sent (net w)) <> XCannotSend ->
  let sent_once := emit (EvRequest method ep data) (with_net next_request w) in
  SkelConnection.poli_request (S depth) ep data method w
  = match exchanges (net w) (sent (net w)) with
    | XResp status body =>
        (match body with Some v => Ok v | None => Raise IOError end,
         if (status =? 200)%Z then sent_once
         else emit (EvLog ERROR "The %s request didn't go as expected")
                sent_once)
    | XRespFail => (Raise HTTPException, sent_once)
    | _ => (Raise SocketError, sent_once)
    end.
Proof.
  intros Honline Hh Hx sent_once.
  cbn [SkelConnection.poli_request].
  unfold SkelConnection.poli_request_with.
  unfold bind at 1; cbn [get]. rewrite Honline. cbn [negb].
  unfold bind at 1, try_except. rewrite (request_run method ep data w Hh).
  fold sent_once.
  destruct (exchanges (net w) (sent (net w))) as [| | |status [body|]];
    try congruence; try reflexivity;
    unfold SkelConnection.read_response, SkelConnection.getresponse;
    cbn; destruct (status =? 200)%Z; reflexivity.
Qed.

(** The server answers 404 with a JSON body: the body is what [poli_post]
    returns. *)
Lemma poli_request_sends_once_witness :
  let w := Sample.world Sample.says_yes Sample.online
             (Sample.scripted [XResp 404 (Some Sample.rejected)]) in
  let ep := EpSample "/api/1.0/" (PInt 7) "names" None in
  SkelConnection.poli_post ep PNone w
  = (Ok Sample.rejected,
     emit (EvLog ERROR "The %s request didn't go as expected")
       (emit (EvRequest "POST" ep PNone) (with_net next_request w))).
Proof.
  intros w ep.
  apply (poli_request_sends_once 165 ep PNone "POST" w);
    [reflexivity | discriminate | discriminate].
Defined.

Lemma poli_request_offline depth ep data method w :
  is_online (conn w) = false ->
  SkelConnection.poli_request (S depth) ep data method w
  = (Raise IOError,
     emit (EvLog ERROR "Cannot send requests while not connected") w).
Proof.
  intros H. cbn [SkelConnection.poli_request].
  unfold SkelConnection.poli_request_with.
  unfold bind at 1; cbn [get]. now rewrite H.
Qed.

(** X1: offline, every method that talks to the server raises [IOError]
    and no request leaves: the pushes of a comment, a name (other than
    [None]) or a type, the two fetches, and the abstract. *)
Theorem offline_methods_raise w :
  is_online (conn w) = false ->
  forall (address : Z) (v : pyval) (timestamp : option Z),
    v <> PNone ->
    let raises {A} (m : M A) :=
      fst (m w) = Raise IOError /\ net (snd (m w)) = net w in
    raises (SkelConnection.push_comment address v) /\
    raises (SkelConnection.push_name address v) /\
    raises (SkelConnection.push_type address v) /\
    raises (SkelConnection.get_comments timestamp) /\
    raises (SkelConnection.get_names timestamp) /\
    raises SkelConnection.get_abstract /\
    raises (SkelConnection.push_abstract v).
Proof.
  intros H address v timestamp Hv raises. subst raises. cbv beta.
  unfold SkelConnection.push_comment, SkelConnection.push_name,
    SkelConnection.push_type, SkelConnection.get_comments,
    SkelConnection.get_names, SkelConnection.get_abstract,
    SkelConnection.push_abstract, SkelConnection.poli_post,
    SkelConnection.poli_get, SkelConnection.recursion_limit,
    SkelConnection.prepare_endpoint, bind, modify, get.
  destruct v; try congruence;
    rewrite !poli_request_offline by exact H; cbn; repeat split.
Qed.

Lemma offline_methods_raise_witness :
  let w := Sample.world Sample.says_yes Sample.offline
             (Sample.server Sample.accepted) in
  fst (SkelConnection.push_name 4198400 (PStr "ParseHeader") w)
  = Raise IOError /\
  net (snd (SkelConnection.push_name 4198400 (PStr "ParseHeader") w)) = net w.
Proof.
  intros w.
  destruct (offline_methods_raise w eq_refl 4198400 (PStr "ParseHeader") None)
    as (_ & H & _); [discriminate | exact H].
Defined.

(** X3: after [close_connection] the connection object is offline and has
    forgotten the sample: a push that follows raises [IOError] and sends
    nothing. *)
Theorem closed_connection_refuses address name w :
  name <> PNone ->
  let closed := snd (SkelConnection.close_connection w) in
  let after := (SkelConnection.close_connection ;;
                SkelConnection.push_name address name) w in
  is_online (conn closed) = false /\
  sample_id (conn closed) = PNone /\
  fst after = Raise IOError /\
  sent (net (snd after)) = sent (net w).
Proof.
  intros Hname closed after.
  assert (Hc : is_online (conn closed) = false /\
               sample_id (conn closed) = PNone /\ net closed = net w).
  { unfold closed, SkelConnection.close_connection, g_logger, bind, get,
      modify, ret. cbn [emit conn]. destruct (h_conn (conn w)); cbn; auto. }
  destruct Hc as (Hoff & Hsid & Hnet).
  split; [exact Hoff|]. split; [exact Hsid|].
  assert (Ha : after = SkelConnection.push_name address name closed).
  { unfold after. unfold bind at 1. now rewrite close_connection_returns. }
  rewrite Ha.
  destruct (offline_methods_raise closed Hoff address name None Hname)
    as (_ & [H1 H2] & _).
  split; [exact H1 | now rewrite H2, Hnet].
Qed.

Lemma closed_connection_refuses_witness :
  let w := Sample.world Sample.says_yes Sample.online
             (Sample.server Sample.accepted) in
  fst ((SkelConnection.close_connection ;;
        SkelConnection.push_name 4198400 (PStr "ParseHeader")) w)
  = Raise IOError.
Proof.
  intros w.
  destruct (closed_connection_refuses 4198400 (PStr "ParseHeader") w)
    as (_ & _ & H & _); [discriminate | exact H].
Defined.

End Connection.

Section Session.

Local Open Scope string_scope.

(** X4: [get_online] never raises. When the connect fails it returns
    [False], the connection object holds the new handle, and neither its
    online flag nor the count of requests has changed. *)
Theorem get_online_never_raises w :
  (exists b, fst (SkelConnection.get_online w) = Ok b) /\
  (connects (net w) (dialed (net w)) = false ->
   let w' := snd (SkelConnection.get_online w) in
   fst (SkelConnection.get_online w) = Ok false /\
   h_conn (conn w') = Some (dialed (net w)) /\
   is_online (conn w') = is_online (conn w) /\
   sent (net w') = sent (net w) /\
   dialed (net w') = S (dialed (net w))).
Proof.
  split; [apply get_online_with_returns|].
  intros Hc.
  unfold SkelConnection.get_online, SkelConnection.get_online_with,
    SkelConnection.do_init_with, try_except, g_logger, bind, get, modify,
    ret, raise.
  destruct (http_debug (conn w)); cbn; rewrite Hc; cbn; repeat split.
Qed.

Lemma get_online_never_raises_witness :
  let w := mkWorld (Sample.database Sample.says_yes) Sample.offline
             (mkNet (fun _ => XSendFail) 0 (fun _ => false) 0) 0 [] in
  fst (SkelConnection.get_online w) = Ok false /\
  is_online (conn (snd (SkelConnection.get_online w))) = false.
Proof.
  intros w.
  destruct (get_online_never_raises w) as [_ H].
  destruct (H eq_refl) as (H1 & _ & H2 & _).
  split; [exact H1 | exact H2].
Defined.

(** X5: [get_sample_id] never raises and never returns [None]: whatever
    goes wrong with the lookup, the answer is [False]. *)
Theorem get_sample_id_never_none w :
  exists v, fst (SkelConnection.get_sample_id w) = Ok v /\ v <> PNone.
Proof.
  unfold SkelConnection.get_sample_id, SkelConnection.get_sample_id_with.
  unfold bind at 1; cbn [get]. unfold try_except.
  match goal with
  | |- context [bind ?m ?k w] => destruct (bind m k w) as [[v|e] w1] eqn:E
  end.
  - exists v. split; [reflexivity|].
    unfold bind at 1 in E.
    destruct (SkelConnection.poli_get _ _ w) as [[data|e] w2];
      [|discriminate].
    unfold bind at 1 in E.
    destruct (getitem data "sample_id" w2) as [[sid|e] w3]; [|discriminate].
    destruct sid; cbn in E; injection E as <- _; discriminate.
  - exists (PBool false). split; [reflexivity | discriminate].
Qed.

(** X6: a connection that does not know its sample yet asks the server
    for the hash of the input file, in lower case; when the server answers
    with an identifier, that one request is all [init_sample_id] sends,
    and the identifier is kept. Nothing is uploaded. *)
Theorem init_sample_id_known_sample status body sid w :
  sample_id (conn w) = PNone ->
  is_online (conn w) = true ->
  h_conn (conn w) <> None ->
  exchanges (net w) (sent (net w)) = XResp status (Some body) ->
  getitem body "sample_id" w = (Ok sid, w) ->
  truthy sid = true ->
  let asked_once :=
    emit (EvRequest "GET" (EpSampleByHash (lower (InputMD5 (ida w)))) PNone)
      (with_net next_request w) in
  SkelConnection.init_sample_id w
  = (Ok tt,
     with_conn (set_sample_id sid)
       (if (status =? 200)%Z then asked_once
        else emit (EvLog ERROR "The %s request didn't go as expected")
               asked_once)).
Proof.
  intros Hsid Honline Hh Hx Hbody Htruthy asked_once.
  unfold SkelConnection.init_sample_id, SkelConnection.init_sample_id_with.
  unfold bind at 1; cbn [get]. rewrite Hsid.
  unfold bind at 1, SkelConnection.get_sample_id_with.
  unfold bind at 1; cbn [get]. unfold try_except. unfold bind at 1.
  unfold SkelConnection.poli_get, SkelConnection.recursion_limit.
  rewrite poli_request_sends_once by (try assumption; rewrite Hx; discriminate).
  rewrite Hx. fold asked_once.
  assert (Hb : forall w0, getitem body "sample_id" w0 = (Ok sid, w0)).
  { intros w0. unfold getitem in *. destruct body; try discriminate.
    destruct (assoc "sample_id" kv); [|discriminate].
    cbn in *. now injection Hbody as ->. }
  unfold bind at 1. rewrite Hb.
  assert (Hn : sid <> PNone) by (intros ->; discriminate).
  destruct sid; try congruence; cbn [ret];
    unfold bind at 1; cbn [modify]; rewrite Htruthy; reflexivity.
Qed.

Lemma init_sample_id_known_sample_witness :
  let w := mkWorld (Sample.database Sample.says_yes)
             (mkConn true "/api/1.0/" (Some 0%nat) true PNone)
             (Sample.server (PDict [("sample_id", PInt 7)])) 0 [] in
  sample_id (conn (snd (SkelConnection.init_sample_id w))) = PInt 7 /\
  trace (snd (SkelConnection.init_sample_id w))
  = [EvRequest "GET" (EpSampleByHash "d41d8cd98f00b204e9800998ecf8427e")
       PNone].
Proof.
  intros w.
  rewrite (init_sample_id_known_sample 200
             (PDict [("sample_id", PInt 7)]) (PInt 7) w);
    try reflexivity; [split; reflexivity | discriminate].
Defined.

(** X7: no method of the connection writes the IDA database or moves the
    watermark: the pushes, the fetches, the abstract, [get_online] and
    [close_connection] leave both as they were. *)
Theorem connection_never_writes_database w :
  forall (address : Z) (v : pyval) (timestamp : option Z),
    let untouched {A} (m : M A) :=
      ida (snd (m w)) = ida w /\
      last_timestamp (snd (m w)) = last_timestamp w in
    untouched (SkelConnection.push_comment address v) /\
    untouched (SkelConnection.push_name address v) /\
    untouched (SkelConnection.push_type address v) /\
    untouched (SkelConnection.get_comments timestamp) /\
    untouched (SkelConnection.get_names timestamp) /\
    untouched SkelConnection.get_abstract /\
    untouched (SkelConnection.push_abstract v) /\
    untouched SkelConnection.get_online /\
    untouched SkelConnection.close_connection.
Proof.
  intros address v timestamp untouched. subst untouched. cbv beta.
  assert (Hpush : forall e (k : unit -> M pyval),
             preserves network_only (k tt) ->
             network_only w (snd (bind (modify (emit e)) k w))).
  { intros e k Hk. exact (Hk (emit e w)). }
  assert (H1 : network_only w
                 (snd (SkelConnection.push_comment address v w))).
  { apply Hpush. unfold SkelConnection.prepare_endpoint, getitem. preserve. }
  assert (H2 : network_only w (snd (SkelConnection.push_name address v w))).
  { apply Hpush. unfold SkelConnection.prepare_endpoint, getitem. preserve. }
  assert (H3 : network_only w (snd (SkelConnection.push_type address v w))).
  { apply Hpush. unfold SkelConnection.prepare_endpoint, getitem. preserve. }
  assert (H4 : preserves network_only SkelConnection.get_abstract).
  { unfold SkelConnection.get_abstract, SkelConnection.prepare_endpoint,
      getitem. preserve. }
  assert (H5 : preserves network_only (SkelConnection.push_abstract v)).
  { unfold SkelConnection.push_abstract, SkelConnection.prepare_endpoint,
      getitem. preserve. }
  assert (H6 : preserves network_only SkelConnection.get_online).
  { unfold SkelConnection.get_online.
    apply get_online_with_preserves; [exact _|]. preserve. }
  split; [exact H1|]. split; [exact H2|]. split; [exact H3|].
  split; [apply (get_comments_preserves network_only)|].
  split; [apply (get_names_preserves network_only)|].
  split; [apply H4|]. split; [apply H5|]. split; [apply H6|].
  apply (close_connection_preserves network_only).
Qed.

(** X8: the appliers stay on the machine: [execute_comment] and
    [execute_rename] send nothing, leave the connection object and the
    watermark alone, and call no push. *)
Theorem appliers_never_use_network (item : pyval) w :
  let local {A} (m : M A) :=
    conn (snd (m w)) = conn w /\ net (snd (m w)) = net w /\
    last_timestamp (snd (m w)) = last_timestamp w /\
    calls (snd (m w)) = calls w in
  local (SkelUtils.execute_comment item) /\
  local (SkelUtils.execute_rename item).
Proof.
  intros local. subst local. cbv beta.
  pose proof (execute_comment_preserves applier_only item w) as (A1 & A2 & A3).
  pose proof (execute_comment_preserves same_calls item w) as A4.
  pose proof (execute_rename_preserves applier_only item w) as (B1 & B2 & B3).
  pose proof (execute_rename_preserves same_calls item w) as B4.
  repeat split; assumption.
Qed.

End Session.

(** * More properties of the hooks and the filters *)

Section Hooks.

Local Open Scope string_scope.

Lemma boilerplate_iff (text : bytes) :
  boilerplate text = true <->
  exists stem, In stem SkelUtils.black_list /\
               starts_with_ignoring_case text stem.
Proof.
  unfold boilerplate. rewrite existsb_exists.
  split; intros (stem & Hin & H); exists stem; (split; [exact Hin|]);
    now apply starts_with_ignoring_case_iff.
Qed.

(** X9: [filter_coms_blacklist] never raises and answers [True] in two
    cases only: there is no comment, or the comment starts, without regard
    to case, with a stem of the list. It logs and does nothing else. *)
Theorem filter_coms_blacklist_iff cmt w :
  exists b,
    fst (SkelUtils.filter_coms_blacklist cmt w) = Ok b /\
    (b = true <->
     cmt = None \/
     exists text stem, cmt = Some text /\ In stem SkelUtils.black_list /\
                       starts_with_ignoring_case text stem) /\
    let w' := snd (SkelUtils.filter_coms_blacklist cmt w) in
    ida w' = ida w /\ conn w' = conn w /\ net w' = net w /\
    calls w' = calls w.
Proof.
  assert (Hlog : forall (lvl : level) (msg : string) (b : bool),
             let w' := snd ((g_logger lvl msg ;; ret b) w) in
             ida w' = ida w /\ conn w' = conn w /\ net w' = net w /\
             calls w' = calls w).
  { intros lvl msg b. unfold bind, g_logger, modify, ret. cbn [snd].
    repeat split. rewrite calls_emit. apply app_nil_r. }
  unfold SkelUtils.filter_coms_blacklist.
  destruct cmt as [text|].
  - fold (boilerplate text). destruct (boilerplate text) eqn:E.
    + exists true. split; [reflexivity|]. split; [|apply Hlog].
      split; [|reflexivity]. intros _. right.
      apply boilerplate_iff in E as (stem & Hin & H).
      now exists text, stem.
    + exists false. split; [reflexivity|]. split; [|now repeat split].
      split; [discriminate|].
      intros [H|(t & stem & [= <-] & Hin & H)]; [discriminate|].
      rewrite <- E. apply boilerplate_iff. now exists stem.
  - exists true. split; [reflexivity|]. split; [|apply Hlog].
    split; [now left | reflexivity].
Qed.

(** X10: [cmt_changed] calls [push_comment] once, with the comment of the
    kind that changed, when there is such a comment and the filter lets it
    through, and calls nothing otherwise. *)
Theorem cmt_changed_pushes_iff (addr : Z) (rpt : bool) (w : World) :
  let cmt := if rpt then rpt_cmts (ida w) !! addr
             else cmts (ida w) !! addr in
  calls (snd (SkelHooks.cmt_changed addr rpt w))
  = (calls w ++
     match cmt with
     | Some text => if boilerplate text then []
                    else [CallPushComment addr (PStr text)]
     | None => []
     end)%list.
Proof.
  intros cmt. unfold SkelHooks.cmt_changed. unfold bind at 1.
  assert (E : (if rpt then idc.RptCmt addr else idc.Comment addr) w
              = (Ok cmt, w)).
  { unfold cmt. now destruct rpt. }
  rewrite E. unfold bind at 1, SkelUtils.filter_coms_blacklist.
  destruct cmt as [text|].
  - fold (boilerplate text). destruct (boilerplate text).
    + unfold bind, g_logger, modify, ret. cbn [snd negb].
      rewrite calls_emit. cbn [is_call]. now rewrite !app_nil_r.
    + cbn [ret negb]. unfold bind at 1 2. cbn [of_str].
      rewrite <- push_comment_calls.
      now destruct (SkelConnection.push_comment addr (PStr text) w)
        as [[v|e] w1].
  - unfold bind, g_logger, modify, ret. cbn [snd negb].
    rewrite calls_emit. cbn [is_call]. now rewrite !app_nil_r.
Qed.

Lemma try_except_KeyError (m : M unit) w :
  fst (try_except m (exn_eqb KeyError) (fun _ => ret tt) w) <> Raise KeyError.
Proof.
  unfold try_except. destruct (m w) as [[[]|e] w1]; cbn; [discriminate|].
  destruct e; cbn; discriminate.
Qed.

(** X11: [postprocess] never raises [KeyError]: an answer of the server
    that lacks the key the push reads is swallowed by the hook, whatever
    the command. *)
Theorem postprocess_swallows_KeyError self w :
  fst (SkelHooks.postprocess self w) <> Raise KeyError.
Proof.
  unfold SkelHooks.postprocess. unfold bind at 1.
  match goal with
  | |- context [try_except ?m _ _ w] =>
      pose proof (try_except_KeyError m w) as H;
      destruct (try_except m (exn_eqb KeyError) (fun _ => ret tt) w)
        as [[[]|e] w1]
  end; cbn in *; [discriminate | congruence].
Qed.

(** The server answers [{}]: [cmt_changed] raises [KeyError], the command
    hook returns 0. *)
Example empty_answer_in_the_hooks :
  let w := mkWorld
             (mkIda {[ 4198400%Z := "checks the magic" ]} ∅ ∅ ∅ ∅
                4194304 4259840 4198400 "" "" Sample.says_yes 0)
             Sample.online (Sample.server (PDict [])) 0 [] in
  fst (SkelHooks.cmt_changed 4198400 false w) = Raise KeyError /\
  fst (SkelHooks.postprocess (SkelHooks.mkUIHook "MakeComment" 4198400) w)
  = Ok 0%Z.
Proof. vm_compute. split; reflexivity. Qed.

Lemma push_comment_keeps_calls address comment w :
  keeps_calls w (snd (SkelConnection.push_comment address comment w)).
Proof. eexists. apply push_comment_calls. Qed.

(** X12: the command hook does not filter. After a command whose name
    holds [MakeComment], the plain comment at the address, boilerplate or
    not, is handed to [push_comment] first. *)
Theorem postprocess_pushes_unfiltered self text w :
  contains "MakeComment" (SkelHooks.cmdname self) = true ->
  cmts (ida w) !! SkelHooks.addr self = Some text ->
  exists rest,
    calls (snd (SkelHooks.postprocess self w))
    = (calls w ++ CallPushComment (SkelHooks.addr self) (PStr text) :: rest)
        %list.
Proof.
  intros Hcmd Hcmt. unfold SkelHooks.postprocess. rewrite Hcmd.
  unfold bind at 1, try_except. unfold bind at 1, idc.Comment; cbn [get].
  rewrite Hcmt. cbn [of_str]. unfold bind at 1. unfold bind at 1.
  pose proof (push_comment_calls (SkelHooks.addr self) (PStr text) w) as H1.
  destruct (SkelConnection.push_comment (SkelHooks.addr self) (PStr text) w)
    as [[v|e] w1]; cbn [snd] in H1.
  - cbn [ret]. unfold bind at 1, idc.GetFunctionCmt; cbn [get].
    destruct (negb (String.eqb _ "")).
    + unfold bind at 1.
      match goal with
      | |- context [SkelConnection.push_comment ?a ?c w1] =>
          pose proof (push_comment_calls a c w1) as H2;
          destruct (SkelConnection.push_comment a c w1) as [[v2|e2] w2]
      end; cbn [snd] in H2.
      * cbn. eexists. rewrite H2, H1, <- app_assoc. reflexivity.
      * destruct (exn_eqb KeyError e2); cbn;
          eexists; rewrite H2, H1, <- app_assoc; reflexivity.
    + cbn. exists []. exact H1.
  - destruct (exn_eqb KeyError e); cbn; exists []; exact H1.
Qed.

(** The comment ["int x"] at 0x402000 goes to the server. *)
Lemma postprocess_pushes_unfiltered_witness :
  let w := Sample.world Sample.says_yes Sample.online
             (Sample.server Sample.accepted) in
  boilerplate "int x" = true /\
  exists rest,
    calls (snd (SkelHooks.postprocess
                  (SkelHooks.mkUIHook "MakeComment" 4202496) w))
    = CallPushComment 4202496 (PStr "int x") :: rest.
Proof.
  intros w. split; [reflexivity|].
  apply (postprocess_pushes_unfiltered
           (SkelHooks.mkUIHook "MakeComment" 4202496) "int x" w);
    reflexivity.
Defined.

(** X13: what [func_name_blacklist] computes. [None] is not blacklisted;
    the empty name makes [name[0]] raise; any other name is blacklisted
    when one of the seven values stands at offset 0 or 1 of it, or when it
    begins with [@] or [?]. *)
Theorem func_name_blacklist_spec :
  SkelUtils.func_name_blacklist None = Some false /\
  SkelUtils.func_name_blacklist (Some "") = None /\
  forall c rest,
    exists b,
      SkelUtils.func_name_blacklist (Some (String c rest)) = Some b /\
      (b = true <->
       (exists val, In val SkelUtils.func_default_values /\
                    (startswith (String c rest) val = true \/
                     startswith rest val = true)) \/
       c = "@"%char \/ c = "?"%char).
Proof.
  split; [reflexivity|]. split; [reflexivity|].
  intros c rest. unfold SkelUtils.func_name_blacklist.
  match goal with
  | |- context [existsb ?f ?l] => destruct (existsb f l) eqn:E
  end.
  - exists true. split; [reflexivity|]. split; [|reflexivity]. intros _.
    left. apply existsb_exists in E as (val & Hin & H).
    exists val. split; [exact Hin|].
    rewrite contains_slice_to in H. now apply orb_true_iff in H.
  - assert (Hno : ~ exists val, In val SkelUtils.func_default_values /\
                    (startswith (String c rest) val = true \/
                     startswith rest val = true)).
    { intros (val & Hin & H).
      assert (existsb
                (fun val => contains val
                   (slice_to (String.length val + 1) (String c rest)))
                SkelUtils.func_default_values = true); [|congruence].
      apply existsb_exists. exists val. split; [exact Hin|].
      rewrite contains_slice_to. now apply orb_true_iff. }
    destruct (Ascii.eqb c "@") eqn:E1; cbn [orb].
    + exists true. split; [reflexivity|]. split; [|reflexivity].
      intros _. right; left. now apply Ascii.eqb_eq.
    + destruct (Ascii.eqb c "?") eqn:E2.
      * exists true. split; [reflexivity|]. split; [|reflexivity].
        intros _. right; right. now apply Ascii.eqb_eq.
      * exists false. split; [reflexivity|]. split; [discriminate|].
        intros [H|[->| ->]]; [contradiction | |].
        -- now rewrite Ascii.eqb_refl in E1.
        -- now rewrite Ascii.eqb_refl in E2.
Qed.

End Hooks.

(** * More properties of the type patch *)

Section TypePatch.

Local Open Scope string_scope.

Lemma append_assoc (a b c : bytes) : a ++ b ++ c = (a ++ b) ++ c.
Proof.
  induction a as [|x a IH]; [reflexivity|].
  change (String x (a ++ b ++ c) = String x ((a ++ b) ++ c)). now f_equal.
Qed.

Lemma prefix_app_l (a b s : bytes) :
  String.prefix (a ++ b) s = true -> String.prefix a s = true.
Proof.
  revert s; induction a as [|c a IH]; intros s; [now destruct s|].
  destruct s as [|d s]; simpl; [discriminate|].
  destruct (ascii_dec c d); [apply IH | discriminate].
Qed.

Lemma contains_app_l (a b s : bytes) :
  contains (a ++ b) s = true -> contains a s = true.
Proof.
  induction s as [|c s IH]; cbn [contains].
  - apply prefix_app_l.
  - intros H. apply orb_true_iff in H as [H|H]; apply orb_true_iff.
    + left. now apply (prefix_app_l a b).
    + right. now apply IH.
Qed.

Lemma contains_middle (pre c post : bytes) :
  contains c (pre ++ c ++ post) = true.
Proof.
  induction pre as [|a pre IH]; simpl.
  - apply (contains_prefix c (c ++ post)), prefix_app.
  - rewrite IH. apply orb_true_r.
Qed.

(** What one loop of [prepare_parse_type] leaves in [(flag, mtype)]. *)
Lemma patch_conventions_flag typestr named convs flag mtype :
  let acc := SkelUtils.patch_conventions typestr named convs (flag, mtype) in
  fst acc = flag || existsb (fun conv => contains conv typestr) convs /\
  (snd acc <> None <->
   mtype <> None \/ existsb (fun conv => contains conv typestr) convs = true).
Proof.
  unfold SkelUtils.patch_conventions.
  revert flag mtype; induction convs as [|conv convs IH]; intros flag mtype.
  - cbn. rewrite orb_false_r. split; [reflexivity|].
    split; [now left | now intros [H|H]].
  - cbn [fold_left existsb].
    destruct (contains conv typestr).
    + destruct (IH true (Some (PyStr.replace typestr conv (named conv))))
        as [H1 H2].
      cbv zeta in *. rewrite H1. cbn. rewrite orb_true_r.
      split; [reflexivity|]. rewrite H2. split; intros _; [now right|].
      left; discriminate.
    + apply IH.
Qed.

(** X14: [prepare_parse_type] never raises and never writes; it returns a
    type string when one of the four calling conventions occurs in the
    type, and [None] in every other case. *)
Theorem prepare_parse_type_some_iff typestr addr w :
  exists r,
    SkelUtils.prepare_parse_type typestr addr w = (Ok r, w) /\
    (r <> None <->
     exists conv, In conv SkelUtils.cconventions /\
                  contains conv typestr = true).
Proof.
  unfold SkelUtils.prepare_parse_type, idc.GetTrueName, bind, get, ret.
  eexists. split; [reflexivity|].
  set (lname := match names (ida w) !! addr with
                | Some n => n
                | None => "Default"
                end).
  pose proof (patch_conventions_flag typestr (fun conv => conv ++ lname)
                SkelUtils.fpconventions false None) as [F1 F2].
  cbv zeta in F1, F2.
  destruct (SkelUtils.patch_conventions typestr (fun conv => conv ++ lname)
              SkelUtils.fpconventions (false, None)) as [flag mtype].
  cbn [fst snd] in *. cbn [orb] in F1.
  assert (Hfp : existsb (fun conv => contains conv typestr)
                  SkelUtils.fpconventions = true ->
                existsb (fun conv => contains conv typestr)
                  SkelUtils.cconventions = true).
  { intros H. apply existsb_exists in H as (fp & Hin & Hc).
    apply existsb_exists.
    cbn in Hin.
    destruct Hin as [<-|[<-|[<-|[<-|[]]]]];
      [exists "__cdecl" | exists "__stdcall" | exists "__fastcall"
       | exists "__thiscall"];
      (split; [cbn; tauto | now apply (contains_app_l _ " *")]). }
  rewrite <- existsb_exists.
  destruct flag; cbn [negb].
  - cbn [snd]. rewrite F2. split; [intros _; now apply Hfp|].
    intros _. right. now symmetry.
  - pose proof (patch_conventions_flag typestr
                  (fun conv => conv ++ " " ++ lname)
                  SkelUtils.cconventions false mtype) as [C1 C2].
    cbv zeta in C1, C2. rewrite C2. split.
    + intros [H|H]; [|exact H]. apply F2 in H as [H|H]; [congruence|].
      now apply Hfp.
    + intros H. now right.
Qed.

Lemma replace_from_absent (old new s : bytes) :
  contains old s = false -> PyStr.replace_from old new 0 s = s.
Proof.
  induction s as [|c s IH]; [reflexivity|].
  cbn [contains PyStr.replace_from]. intros H.
  apply orb_false_iff in H as [H1 H2]. rewrite H1. now rewrite IH.
Qed.

Lemma replace_from_skip (old new p r : bytes) :
  PyStr.replace_from old new (String.length p) (p ++ r)
  = PyStr.replace_from old new 0 r.
Proof. induction p as [|c p IH]; simpl; [reflexivity | exact IH]. Qed.

Lemma slice_to_app (n : nat) (x y : bytes) :
  (n <= String.length x)%nat -> slice_to n (x ++ y) = slice_to n x.
Proof.
  revert x; induction n as [|n IH]; intros x H; [now destruct x, y|].
  destruct x as [|c x]; simpl in *; [lia|]. rewrite IH by lia. reflexivity.
Qed.

Lemma prefix_app_slice (c a x : bytes) (k : nat) :
  (String.length c <= String.length a + k)%nat ->
  String.prefix c (a ++ x) = String.prefix c (a ++ slice_to k x).
Proof.
  revert c; induction a as [|d a IH]; intros c H.
  - simpl in *. symmetry. now apply prefix_slice_to.
  - destruct c as [|e c]; [reflexivity|]. simpl in *.
    destruct (ascii_dec e d); [|reflexivity]. apply IH. lia.
Qed.

Lemma replace_from_here (old new r : bytes) :
  old <> "" ->
  PyStr.replace_from old new 0 (old ++ r)
  = new ++ PyStr.replace_from old new 0 r.
Proof.
  intros Hold. destruct old as [|c p]; [congruence|].
  pose proof (prefix_app (String c p) r) as Hp.
  change (String c p ++ r) with (String c (p ++ r)) in *.
  cbn [PyStr.replace_from]. rewrite Hp.
  cbn [String.length]. rewrite Nat.sub_succ, Nat.sub_0_r.
  now rewrite replace_from_skip.
Qed.

Lemma replace_from_pass (old new : bytes) (a : ascii) (s : bytes) :
  String.prefix old (String a s) = false ->
  PyStr.replace_from old new 0 (String a s)
  = String a (PyStr.replace_from old new 0 s).
Proof. intros H. cbn [PyStr.replace_from]. now rewrite H. Qed.

(** [replace] on a string that holds [old] once. *)
Lemma replace_single (old new pre post : bytes) :
  old <> "" ->
  contains old (pre ++ slice_to (String.length old - 1) old) = false ->
  contains old post = false ->
  PyStr.replace (pre ++ old ++ post) old new = pre ++ new ++ post.
Proof.
  intros Hold Hpre Hpost.
  assert (E : PyStr.replace (pre ++ old ++ post) old new
              = PyStr.replace_from old new 0 (pre ++ old ++ post)).
  { unfold PyStr.replace. destruct old; [congruence | reflexivity]. }
  rewrite E. clear E.
  induction pre as [|a pre IH].
  - change ("" ++ old ++ post) with (old ++ post).
    rewrite replace_from_here by exact Hold.
    now rewrite replace_from_absent by exact Hpost.
  - change (String a pre ++ slice_to (String.length old - 1) old)
      with (String a (pre ++ slice_to (String.length old - 1) old)) in Hpre.
    cbn [contains] in Hpre. apply orb_false_iff in Hpre as [H1 H2].
    change (String a pre ++ old ++ post)
      with (String a (pre ++ old ++ post)).
    rewrite replace_from_pass.
    + rewrite (IH H2). reflexivity.
    + change (String a (pre ++ old ++ post))
        with (String a pre ++ old ++ post).
      rewrite (prefix_app_slice old (String a pre) (old ++ post)
                 (String.length old - 1)) by (simpl; lia).
      rewrite slice_to_app by lia. exact H1.
Qed.

Lemma patch_conventions_single typestr named convs conv acc :
  List.NoDup convs ->
  In conv convs ->
  (forall other, In other convs -> other <> conv ->
                 contains other typestr = false) ->
  contains conv typestr = true ->
  SkelUtils.patch_conventions typestr named convs acc
  = (true, Some (PyStr.replace typestr conv (named conv))).
Proof.
  intros Hnd; revert acc; induction Hnd as [|c0 rest Hnotin Hnd IH];
    intros acc Hin Hothers Hconv; [contradiction|].
  unfold SkelUtils.patch_conventions in *. cbn [fold_left].
  destruct Hin as [->|Hin].
  - rewrite Hconv.
    apply (patch_conventions_absent typestr named rest).
    intros o Ho. apply Hothers; [now right|]. intros ->. contradiction.
  - assert (c0 <> conv) by (intros ->; contradiction).
    rewrite (Hothers c0) by (auto; now left).
    apply IH; auto. intros o Ho. apply Hothers. now right.
Qed.

Lemma slice_to_slice_to (n m : nat) (s : bytes) :
  (n <= m)%nat -> slice_to n (slice_to m s) = slice_to n s.
Proof.
  revert m s; induction n as [|n IH]; intros m s H; [now destruct m, s|].
  destruct m as [|m]; [lia|]. destruct s as [|c s]; [reflexivity|].
  simpl. rewrite IH by lia. reflexivity.
Qed.

Lemma length_append (a b : bytes) :
  String.length (a ++ b) = (String.length a + String.length b)%nat.
Proof.
  induction a as [|x a IH]; [reflexivity|].
  change (String x a ++ b) with (String x (a ++ b)). simpl. now rewrite IH.
Qed.

(** Where [c] does not occur before its place, [c ++ x] does not either. *)
Lemma longer_absent_before (c x pre : bytes) :
  c <> "" ->
  contains c (pre ++ slice_to (String.length c - 1) c) = false ->
  contains (c ++ x)
    (pre ++ slice_to (String.length (c ++ x) - 1) (c ++ x)) = false.
Proof.
  intros Hc. induction pre as [|a pre IH]; intros Hpre.
  - change ("" ++ slice_to (String.length (c ++ x) - 1) (c ++ x))
      with (slice_to (String.length (c ++ x) - 1) (c ++ x)).
    apply contains_short.
    pose proof (length_slice_to (String.length (c ++ x) - 1) (c ++ x)).
    rewrite length_append in *. destruct c; [congruence|]. simpl in *. lia.
  - change (String a pre ++ slice_to (String.length c - 1) c)
      with (String a (pre ++ slice_to (String.length c - 1) c)) in Hpre.
    cbn [contains] in Hpre. apply orb_false_iff in Hpre as [H1 H2].
    change (String a pre ++ slice_to (String.length (c ++ x) - 1) (c ++ x))
      with (String a (pre ++ slice_to (String.length (c ++ x) - 1) (c ++ x))).
    cbn [contains]. rewrite (IH H2), orb_false_r.
    destruct (String.prefix (c ++ x)
                (String a (pre ++ slice_to (String.length (c ++ x) - 1)
                                   (c ++ x)))) eqn:E; [|reflexivity].
    apply prefix_app_l in E.
    change (String a (pre ++ slice_to (String.length (c ++ x) - 1) (c ++ x)))
      with (String a pre ++ slice_to (String.length (c ++ x) - 1) (c ++ x))
      in E.
    rewrite (prefix_app_slice c (String a pre) _ (String.length c - 1))
      in E by (simpl; lia).
    rewrite slice_to_slice_to in E by (rewrite length_append; lia).
    rewrite slice_to_app in E by lia.
    change (String a pre ++ slice_to (String.length c - 1) c)
      with (String a (pre ++ slice_to (String.length c - 1) c)) in E.
    congruence.
Qed.

Lemma fpconventions_of_cconventions fp :
  In fp SkelUtils.fpconventions <->
  exists conv, In conv SkelUtils.cconventions /\ fp = conv ++ " *".
Proof.
  split.
  - cbn. intros [<-|[<-|[<-|[<-|[]]]]];
      [exists "__cdecl" | exists "__stdcall" | exists "__fastcall"
       | exists "__thiscall"]; cbn; tauto.
  - cbn. intros (conv & [<-|[<-|[<-|[<-|[]]]]] & ->); cbn; tauto.
Qed.

(** A function-pointer marker other than that of [conv] is absent where
    the other conventions are. *)
Lemma other_fpconventions_absent conv typestr fp :
  (forall other, In other SkelUtils.cconventions -> other <> conv ->
                 contains other typestr = false) ->
  In fp SkelUtils.fpconventions ->
  fp <> conv ++ " *" ->
  contains fp typestr = false.
Proof.
  intros Hothers Hfp Hne.
  apply fpconventions_of_cconventions in Hfp as (c & Hc & ->).
  destruct (contains (c ++ " *") typestr) eqn:E; [|reflexivity].
  apply contains_app_l in E. rewrite Hothers in E; [discriminate|exact Hc|].
  intros ->. congruence.
Qed.

(** X15: the patch on a type that holds one calling convention, once.
    In a plain prototype the name found at the address ([Default] when
    there is none) is put after the convention and a space; in a function
    pointer, right after the [*]. *)
Theorem prepare_parse_type_inserts_name conv pre post addr w :
  let lname := default "Default" (names (ida w) !! addr) in
  In conv SkelUtils.cconventions ->
  (forall other, In other SkelUtils.cconventions -> other <> conv ->
                 contains other (pre ++ conv ++ post) = false) ->
  contains conv (pre ++ slice_to (String.length conv - 1) conv) = false ->
  contains conv post = false ->
  (contains (conv ++ " *") (pre ++ conv ++ post) = false ->
   SkelUtils.prepare_parse_type (pre ++ conv ++ post) addr w
   = (Ok (Some (pre ++ conv ++ " " ++ lname ++ post)), w)) /\
  (forall rest, post = " *" ++ rest ->
   SkelUtils.prepare_parse_type (pre ++ conv ++ post) addr w
   = (Ok (Some (pre ++ conv ++ " *" ++ lname ++ rest)), w)).
Proof.
  intros lname Hin Hothers Hpre Hpost.
  assert (Hne : conv <> "").
  { intros ->. cbn in Hin. intuition discriminate. }
  assert (Hname : match names (ida w) !! addr with
                  | Some n => n
                  | None => "Default"
                  end = lname).
  { unfold lname. now destruct (names (ida w) !! addr). }
  assert (Hnd : List.NoDup SkelUtils.cconventions).
  { repeat constructor; cbn; intuition discriminate. }
  assert (Hndfp : List.NoDup SkelUtils.fpconventions).
  { repeat constructor; cbn; intuition discriminate. }
  split.
  - intros Hfp.
    unfold SkelUtils.prepare_parse_type, idc.GetTrueName, bind, get, ret.
    rewrite Hname.
    rewrite patch_conventions_absent.
    + cbn [fst negb snd].
      rewrite (patch_conventions_single _ _ _ conv) ; auto using contains_middle.
      cbn [snd]. rewrite replace_single by assumption.
      now rewrite <- !append_assoc.
    + intros fp Hfpin.
      destruct (string_dec fp (conv ++ " *")) as [->|Hne']; [exact Hfp|].
      now apply (other_fpconventions_absent conv).
  - intros rest ->.
    unfold SkelUtils.prepare_parse_type, idc.GetTrueName, bind, get, ret.
    rewrite Hname.
    assert (Hshape : pre ++ conv ++ " *" ++ rest
                     = pre ++ (conv ++ " *") ++ rest)
      by now rewrite <- append_assoc.
    rewrite (patch_conventions_single _ _ _ (conv ++ " *")); auto.
    + cbn [fst negb snd]. rewrite Hshape.
      rewrite replace_single.
      * now rewrite <- !append_assoc.
      * now destruct conv.
      * now apply longer_absent_before.
      * destruct (contains (conv ++ " *") rest) eqn:E; [|reflexivity].
        apply contains_app_l in E.
        change (" *" ++ rest) with (String " " (String "*" rest)) in Hpost.
        cbn [contains] in Hpost.
        apply orb_false_iff in Hpost as [_ Hpost].
        apply orb_false_iff in Hpost as [_ Hpost]. congruence.
    + apply fpconventions_of_cconventions. now exists conv.
    + intros other Ho Hne'.
      now apply (other_fpconventions_absent conv).
    + rewrite Hshape. apply contains_middle.
Qed.

End TypePatch.

(** The prototype and the function pointer of [sub_401000]. *)
Lemma prepare_parse_type_inserts_name_witness :
  let w := Sample.world Sample.says_yes Sample.online
             (Sample.server Sample.accepted) in
  SkelUtils.prepare_parse_type "int __cdecl(int a)" 4198400 w
  = (Ok (Some "int __cdecl sub_401000(int a)"%string), w) /\
  SkelUtils.prepare_parse_type "int (__stdcall *)(int a)" 4198400 w
  = (Ok (Some "int (__stdcall *sub_401000)(int a)"%string), w).
Proof.
  intros w. split.
  - apply (prepare_parse_type_inserts_name "__cdecl" "int " "(int a)"
             4198400 w); try reflexivity.
    + cbn; tauto.
    + intros other Ho Hne. cbn in Ho.
      destruct Ho as [<-|[<-|[<-|[<-|[]]]]]; try reflexivity; congruence.
  - apply (prepare_parse_type_inserts_name "__stdcall" "int (" " *)(int a)"
             4198400 w); try reflexivity.
    + cbn; tauto.
    + intros other Ho Hne. cbn in Ho.
      destruct Ho as [<-|[<-|[<-|[<-|[]]]]]; try reflexivity; congruence.
Defined.

(** * More properties of the appliers *)

Section Appliers.

Local Open Scope string_scope.

(** X16: [execute_rename] at its edges. Without a name at the address it
    raises [AttributeError] and changes nothing. With the incoming ASCII
    name already at the address it returns, asks nothing and leaves the
    names as they are; unless the name starts with [sub_], the world is
    not touched at all. *)
Theorem execute_rename_edges name ea u w :
  annotation_of name = Some (ea, u) ->
  (names (ida w) !! ea = None ->
   SkelUtils.execute_rename name w = (Raise AttributeError, w)) /\
  (all_ascii u = true ->
   names (ida w) !! ea = Some (encode_ignore u) ->
   let w' := snd (SkelUtils.execute_rename name w) in
   fst (SkelUtils.execute_rename name w) = Ok tt /\
   names (ida w') = names (ida w) /\
   asked (ida w') = asked (ida w) /\
   (startswith (encode_ignore u) "sub_" = false -> w' = w)).
Proof.
  intros Ha. destruct (annotation_items name ea u Ha) as [Haddr Hdata].
  split.
  - intros Hnone. unfold SkelUtils.execute_rename.
    unfold bind at 1. rewrite (get_name_run name ea u w Ha), Hnone.
    reflexivity.
  - intros Hascii Hcur w'.
    pose proof (str_eq_encode_ignore u Hascii) as Heq.
    destruct (startswith (encode_ignore u) "sub_") eqn:Hsub.
    + assert (Hrun : SkelUtils.execute_rename name w
                     = (Ok tt,
                        renamed_to ea (encode_ignore u)
                          (emit (EvExecuteSync MFF_FAST) w))).
      { unfold SkelUtils.execute_rename.
        unfold bind at 1. rewrite (get_name_run name ea u w Ha), Hcur.
        unfold bind at 1. rewrite Hsub. cbn [when].
        rewrite (make_name_forced name ea u w Ha).
        unfold bind at 1. rewrite (get_name_run name ea u _ Ha).
        unfold bind at 1. rewrite Hdata.
        unfold renamed_to at 1. cbn [emit with_ida ida set_name names].
        rewrite lookup_insert_eq, Heq. reflexivity. }
      subst w'. rewrite Hrun. cbn.
      repeat split; try discriminate. now apply insert_id.
    + assert (Hrun : SkelUtils.execute_rename name w = (Ok tt, w)).
      { unfold SkelUtils.execute_rename.
        unfold bind at 1. rewrite (get_name_run name ea u w Ha), Hcur.
        unfold bind at 1. rewrite Hsub. cbn [when ret]. unfold bind at 1.
        rewrite (get_name_run name ea u w Ha), Hcur.
        unfold bind at 1. rewrite Hdata, Heq. reflexivity. }
      subst w'. rewrite Hrun. cbn. repeat split.
Qed.

Lemma execute_rename_edges_witness :
  let w := Sample.world Sample.says_no Sample.online
             (Sample.server Sample.accepted) in
  let stamp := "2017-03-01T10:00:05.000000+00:00" in
  SkelUtils.execute_rename (Sample.annotation 4210688 "main" stamp) w
  = (Raise AttributeError, w) /\
  snd (SkelUtils.execute_rename
         (Sample.annotation 4206592 "ParseHeader" stamp) w) = w.
Proof.
  intros w stamp. split.
  - apply (execute_rename_edges (Sample.annotation 4210688 "main" stamp)
             4210688 (U "main") w eq_refl). reflexivity.
  - destruct (execute_rename_edges
                (Sample.annotation 4206592 "ParseHeader" stamp)
                4206592 (U "ParseHeader") w eq_refl) as [_ H].
    apply (H eq_refl eq_refl). reflexivity.
Defined.

(** X17: an [execute_comment] that raises has written nothing: whatever
    the fetched value is (not a dictionary, a key missing, an address that
    is no integer, a text that is no string), the database is as before. *)
Theorem execute_comment_raises_before_writing comment e w :
  fst (SkelUtils.execute_comment comment w) = Raise e ->
  ida (snd (SkelUtils.execute_comment comment w)) = ida w.
Proof.
  unfold SkelUtils.execute_comment, getitem, as_ea, idc.Comment, idc.RptCmt,
    idaapi.execute_sync, encode, g_logger, idc.MakeRptCmt, bind, get, modify,
    ret, raise.
  destruct comment as [| | | | | |kv]; try reflexivity.
  destruct (assoc "address" kv) as [address|]; [|reflexivity].
  destruct address as [|b|ea| | | |]; try reflexivity;
    (destruct (assoc "data" kv) as [data|]; cbn; [|reflexivity]);
    match goal with
    | |- context [str_eq (cmts ?i !! ?a) data] =>
        destruct (str_eq (cmts i !! a) data); cbn;
        [intros; reflexivity|];
        destruct (str_eq (rpt_cmts i !! a) data); cbn;
        [intros; reflexivity|]
    end;
    (destruct data as [| | |s|u| |]; cbn;
       try (intros; reflexivity); try discriminate);
    (destruct (decode_ascii s); cbn; [discriminate|intros; reflexivity]).
Qed.

(** A comment whose text is a number: the applier raises and the database
    keeps its state. *)
Lemma execute_comment_raises_before_writing_witness :
  let w := Sample.world Sample.says_yes Sample.online
             (Sample.server Sample.accepted) in
  let comment := PDict [("address", PInt 4198400); ("data", PInt 5)] in
  fst (SkelUtils.execute_comment comment w) = Raise AttributeError /\
  ida (snd (SkelUtils.execute_comment comment w)) = ida w.
Proof.
  intros w comment. split; [reflexivity|].
  apply (execute_comment_raises_before_writing comment AttributeError w).
  reflexivity.
Defined.

End Appliers.

(** * More properties of the agent's thread *)

Section Cycles.

Import SkelSyncAgent.

Variable strptime : pyval -> result Z.

Lemma owed_step t s s' :
  kill_flagged s = true ->
  step strptime t s = Some s' ->
  kill_flagged s' = true /\
  (syncs s' + owed s'
   <= syncs s + owed s + match t with Timer => 1 | _ => 0 end)%nat.
Proof.
  destruct s as [w ue ke tf tr pc kp n].
  unfold kill_flagged, owed, step, run_step, update, kill_step.
  cbn [world update_event kill_event timer_setup_flag timer_registered
       worker killer syncs].
  intros Hk Hstep.
  destruct t; destruct pc; destruct kp; destruct ue; destruct ke;
    destruct tf; destruct tr;
    try destruct (sync_names strptime w) as [[v|e] w1];
    try discriminate;
    injection Hstep as <-;
    cbn [world update_event kill_event timer_setup_flag timer_registered
         worker killer syncs negb];
    (split; [reflexivity|lia]).
Qed.

Lemma owed_exec schedule s s' :
  kill_flagged s = true ->
  exec strptime schedule s = Some s' ->
  (syncs s' + owed s' <= syncs s + owed s + timer_ticks schedule)%nat.
Proof.
  revert s; induction schedule as [|t rest IH]; intros s Hk Hexec.
  - cbn in Hexec. injection Hexec as <-. unfold timer_ticks; cbn. lia.
  - cbn [exec] in Hexec.
    destruct (step strptime t s) as [s1|] eqn:Hstep; [|discriminate].
    destruct (owed_step t s s1 Hk Hstep) as [Hk1 H1].
    specialize (IH s1 Hk1 Hexec).
    unfold timer_ticks in *.
    destruct t; cbn [List.filter length] in *; lia.
Qed.

(** X18: one run of the timer callback starts at most one cycle. From a
    thread that has not yet been woken, whatever the order in which the
    thread, the timer and [kill] move, [sync_names] is called at most as
    many times as the timer callback has run: signals that arrive while a
    cycle runs are merged, and the wake-up of [kill] starts none. *)
Theorem syncs_bounded_by_ticks schedule s s' :
  killer s = NotCalled ->
  update_event s = false ->
  worker s = AtSetupTimer \/ worker s = AtWaitUpdate ->
  exec strptime schedule s = Some s' ->
  (syncs s' <= syncs s + timer_ticks schedule)%nat.
Proof.
  intros Hk Hu Hw Hexec.
  assert (Hflag : kill_flagged s = true).
  { unfold kill_flagged. now rewrite Hk. }
  assert (Howed : owed s = 0%nat).
  { unfold owed. rewrite Hu.
    destruct Hw as [-> | ->]; now destruct (kill_event s). }
  pose proof (owed_exec schedule s s' Hflag Hexec). lia.
Qed.

Lemma broke_stays schedule s s' :
  worker s = Broke ->
  exec strptime schedule s = Some s' ->
  worker s' = Broke /\ syncs s' = syncs s /\ worker_steps schedule = 0%nat.
Proof.
  revert s; induction schedule as [|t rest IH]; intros s Hw Hexec.
  - cbn in Hexec. injection Hexec as <-. auto.
  - cbn [exec] in Hexec.
    destruct (step strptime t s) as [s1|] eqn:Hstep; [|discriminate].
    destruct t; cbn [step] in Hstep.
    + unfold run_step in Hstep. rewrite Hw in Hstep. discriminate.
    + unfold update in Hstep.
      destruct (timer_registered s); [|discriminate].
      injection Hstep as <-.
      apply IH in Hexec as (? & ? & ?); [|exact Hw]. auto.
    + assert (H1 : worker s1 = Broke /\ syncs s1 = syncs s).
      { unfold kill_step in Hstep.
        destruct (killer s); try discriminate; injection Hstep as <-; auto. }
      destruct H1 as [Hw1 Hs1].
      destruct (IH _ Hw1 Hexec) as (? & ? & ?).
      repeat split; auto; congruence.
Qed.

(** X19: an exception in a cycle ends the synchronisation. When
    [sync_names] raises, the thread logs and leaves its loop; whatever the
    timer and [kill] do afterwards, it makes no further step and
    [sync_names] is not called again. *)
Theorem sync_failure_ends_the_thread s e :
  worker s = AtSyncNames ->
  fst (sync_names strptime (world s)) = Raise e ->
  exists s1,
    run_step strptime s = Some s1 /\
    worker s1 = Broke /\
    forall schedule s',
      exec strptime schedule s1 = Some s' ->
      worker s' = Broke /\ syncs s' = S (syncs s) /\
      worker_steps schedule = 0%nat.
Proof.
  intros Hw Hraise. unfold run_step. rewrite Hw.
  destruct (sync_names strptime (world s)) as [[v|e'] w1];
    cbn [fst] in Hraise; [discriminate|].
  eexists. split; [reflexivity|]. split; [reflexivity|].
  intros schedule s' Hexec.
  apply broke_stays in Hexec as (? & ? & ?); [|reflexivity]. auto.
Qed.

Lemma unregistered_stays schedule s s' :
  kill_event s = true ->
  timer_setup_flag s = true ->
  timer_registered s = false ->
  exec strptime schedule s = Some s' ->
  timer_ticks schedule = 0%nat /\ timer_registered s' = false.
Proof.
  revert s; induction schedule as [|t rest IH]; intros s Hk Hf Hr Hexec.
  - cbn in Hexec. injection Hexec as <-. auto.
  - cbn [exec] in Hexec.
    destruct (step strptime t s) as [s1|] eqn:Hstep; [|discriminate].
    destruct t; cbn [step] in Hstep.
    + assert (H1 : kill_event s1 = true /\ timer_setup_flag s1 = true /\
                   timer_registered s1 = false).
      { unfold run_step in Hstep. rewrite Hf in Hstep.
        destruct (worker s); try discriminate;
          try (destruct (update_event s); [|discriminate]);
          try (destruct (sync_names strptime (world s)) as [[v|e] w1]);
          injection Hstep as <-; cbn; auto. }
      destruct H1 as (Hk1 & Hf1 & Hr1). exact (IH _ Hk1 Hf1 Hr1 Hexec).
    + unfold update in Hstep. rewrite Hr in Hstep. discriminate.
    + assert (H1 : kill_event s1 = true /\ timer_setup_flag s1 = true /\
                   timer_registered s1 = false).
      { unfold kill_step in Hstep.
        destruct (killer s); try discriminate; injection Hstep as <-;
          cbn; auto. }
      destruct H1 as (Hk1 & Hf1 & Hr1). exact (IH _ Hk1 Hf1 Hr1 Hexec).
Qed.

(** X20: after [kill] the timer callback runs at most once more. With the
    stop flag set and the timer set up, the callback returns -1, the timer
    is unregistered, and no schedule runs the callback again. *)
Theorem timer_stops_after_kill schedule s s' :
  kill_event s = true ->
  timer_setup_flag s = true ->
  exec strptime (Timer :: schedule) s = Some s' ->
  timer_ticks schedule = 0%nat /\ timer_registered s' = false.
Proof.
  intros Hk Hf Hexec. cbn [exec step] in Hexec. unfold update in Hexec.
  destruct (timer_registered s); [|discriminate].
  rewrite Hk in Hexec. cbn [negb] in Hexec.
  apply unregistered_stays in Hexec;
    [exact Hexec|reflexivity|exact Hf|reflexivity].
Qed.

End Cycles.

(** The timer fires twice before the thread has cleared the signal: one
    cycle runs. *)
Lemma syncs_bounded_by_ticks_witness :
  let schedule := [SkelSyncAgent.Timer; SkelSyncAgent.Worker;
                   SkelSyncAgent.Timer; SkelSyncAgent.Worker;
                   SkelSyncAgent.Worker; SkelSyncAgent.Worker] in
  exists s',
    SkelSyncAgent.exec Sample.strptime schedule Sample.waiting = Some s' /\
    (SkelSyncAgent.syncs s' <= 2 + 2)%nat.
Proof.
  intros schedule.
  destruct (SkelSyncAgent.exec Sample.strptime schedule Sample.waiting)
    as [s'|] eqn:Hexec; [|vm_compute in Hexec; discriminate].
  exists s'. split; [reflexivity|].
  apply (syncs_bounded_by_ticks Sample.strptime schedule Sample.waiting s');
    [reflexivity | reflexivity | right; reflexivity | exact Hexec].
Defined.

(** The server answers the fetch of the comments with a dictionary that
    has no comments: [sync_names] raises [KeyError] and the thread is
    over, whatever the timer does. *)
Lemma sync_failure_ends_the_thread_witness :
  let s := SkelSyncAgent.mkSystem
             (Sample.world Sample.says_yes Sample.online
                (Sample.server Sample.accepted))
             false false true true SkelSyncAgent.AtSyncNames
             SkelSyncAgent.NotCalled 0 in
  exists s1,
    SkelSyncAgent.run_step Sample.strptime s = Some s1 /\
    forall s',
      SkelSyncAgent.exec Sample.strptime
        [SkelSyncAgent.Timer; SkelSyncAgent.Timer] s1 = Some s' ->
      SkelSyncAgent.syncs s' = 1%nat.
Proof.
  intros s.
  destruct (sync_failure_ends_the_thread Sample.strptime s KeyError)
    as (s1 & Hstep & _ & H); [reflexivity | reflexivity |].
  exists s1. split; [exact Hstep|].
  intros s' Hexec. now destruct (H _ s' Hexec) as (_ & Hs & _).
Defined.

(** [kill] is called while the thread waits; the timer fires once and is
    gone. *)
Lemma timer_stops_after_kill_witness :
  let schedule := [SkelSyncAgent.Worker; SkelSyncAgent.Worker;
                   SkelSyncAgent.Worker] in
  exists s',
    SkelSyncAgent.exec Sample.strptime (SkelSyncAgent.Timer :: schedule)
      (SkelSyncAgent.kill Sample.waiting) = Some s' /\
    SkelSyncAgent.timer_registered s' = false /\
    SkelSyncAgent.update s' = None.
Proof.
  intros schedule.
  destruct (SkelSyncAgent.exec Sample.strptime
              (SkelSyncAgent.Timer :: schedule)
              (SkelSyncAgent.kill Sample.waiting))
    as [s'|] eqn:Hexec; [|vm_compute in Hexec; discriminate].
  exists s'. split; [reflexivity|].
  destruct (timer_stops_after_kill Sample.strptime schedule
              (SkelSyncAgent.kill Sample.waiting) s' eq_refl eq_refl Hexec)
    as [_ Hr].
  split; [exact Hr|]. unfold SkelSyncAgent.update. now rewrite Hr.
Defined.

(** * More properties of the initial synchronisation and the notepad *)

Section Initial.

Local Open Scope string_scope.

Lemma one_comment_run head w :
  exists w1,
    SkelCore.one_comment head w = (Ok (initial_comment (ida w) head), w1) /\
    ida w1 = ida w /\ calls w1 = calls w.
Proof.
  unfold SkelCore.one_comment, initial_comment, kept, idc.Comment, idc.RptCmt,
    SkelUtils.filter_coms_blacklist.
  unfold bind at 1; cbn [get]. unfold bind at 1; cbn [get].
  destruct (cmts (ida w) !! head) as [c|];
    destruct (rpt_cmts (ida w) !! head) as [r|];
    cbn [of_str truthy default];
    try fold (boilerplate c); try fold (boilerplate r);
    try destruct (String.eqb c ""); try destruct (boilerplate c);
    try destruct (String.eqb r ""); try destruct (boilerplate r);
    unfold bind, g_logger, modify, ret; cbn [negb andb];
    eexists; (split; [reflexivity|]); cbn [ida emit];
    (split; [reflexivity|]); rewrite ?calls_emit; cbn [is_call];
    now rewrite ?app_nil_r.
Qed.

Lemma send_comment_run head text w :
  let push :=
    try_except
      (_ <- SkelConnection.push_comment head (PStr text) ;; ret tt)
      (fun _ => true) (fun _ => g_logger EXCEPTION "") in
  exists w2,
    push w = (Ok tt, w2) /\ ida w2 = ida w /\
    calls w2 = (calls w ++ [CallPushComment head (PStr text)])%list.
Proof.
  intros push. subst push. unfold try_except, bind at 1.
  pose proof (push_comment_calls head (PStr text) w) as Hcalls.
  assert (Hida : network_only w
                   (snd (SkelConnection.push_comment head (PStr text) w))).
  { unfold SkelConnection.push_comment.
    match goal with
    | |- network_only w (snd (bind (modify ?f) ?k w)) =>
        change (bind (modify f) k w) with (k tt (f w));
        assert (Hk : preserves network_only (k tt));
        [ | exact (Hk (f w)) ]
    end.
    unfold SkelConnection.prepare_endpoint, getitem. preserve. }
  destruct (SkelConnection.push_comment head (PStr text) w) as [[v|e] w1];
    cbn [snd] in *; destruct Hida as [Hida _].
  - exists w1. now repeat split.
  - eexists. split; [reflexivity|]. cbn [ida emit]. split; [exact Hida|].
    rewrite calls_emit. cbn [is_call]. now rewrite app_nil_r.
Qed.

(** X21: the initial synchronisation of the comments. [send_comments]
    never raises and never writes the database. It calls [push_comment]
    once for each head that has a kept comment, in the order of the heads,
    with the plain comment followed by a space and the repeatable comment;
    a comment that is empty or that the filter stops is left out, and a
    head with no kept comment is skipped. *)
Theorem send_comments_pushes heads w :
  let w' := snd (SkelCore.send_comments heads w) in
  fst (SkelCore.send_comments heads w) = Ok tt /\
  ida w' = ida w /\
  calls w'
  = (calls w ++
     map (fun head =>
            CallPushComment head (PStr (initial_comment (ida w) head)))
       (List.filter
          (fun head =>
             (0 <? String.length (initial_comment (ida w) head))%nat)
          heads))%list.
Proof.
  revert w. induction heads as [|head rest IH]; intros w w'; subst w'.
  - cbn. now rewrite app_nil_r.
  - assert (Hstep : exists w2,
               SkelCore.send_comments (head :: rest) w
               = SkelCore.send_comments rest w2 /\
               ida w2 = ida w /\
               calls w2
               = (calls w ++
                  if (0 <? String.length (initial_comment (ida w) head))%nat
                  then [CallPushComment head
                          (PStr (initial_comment (ida w) head))]
                  else [])%list).
    { unfold SkelCore.send_comments. cbn [for_each].
      unfold bind at 1. unfold bind at 1.
      destruct (one_comment_run head w) as (w1 & Hrun & Hida1 & Hcalls1).
      rewrite Hrun.
      destruct (0 <? String.length (initial_comment (ida w) head))%nat.
      - destruct (send_comment_run head (initial_comment (ida w) head) w1)
          as (w2 & Hpush & Hida2 & Hcalls2).
        cbv zeta in Hpush. rewrite Hpush.
        exists w2. split; [reflexivity|]. split; congruence.
      - exists w1. split; [reflexivity|]. split; [exact Hida1|].
        now rewrite app_nil_r. }
    destruct Hstep as (w2 & -> & Hida2 & Hcalls2).
    destruct (IH w2) as (Hok & Hida & Hcalls).
    rewrite Hida2 in Hida, Hcalls.
    split; [exact Hok|]. split; [exact Hida|].
    rewrite Hcalls, Hcalls2. cbn [List.filter].
    destruct (0 <? String.length (initial_comment (ida w) head))%nat;
      cbn [map]; now rewrite <- app_assoc.
Qed.

(** A head that has only a repeatable comment: the text sent starts with
    the space. A head whose plain comment is a type is skipped. *)
Example send_comments_repeatable_only :
  let w := mkWorld
             (mkIda {[ 4202496%Z := "int x" ]}
                    {[ 4198400%Z := "parses the header" ]} ∅ ∅ ∅
                4194304 4259840 4198400 "" "" Sample.says_yes 0)
             Sample.online (Sample.server Sample.accepted) 0 [] in
  calls (snd (SkelCore.send_comments [4198400; 4202496] w))
  = [CallPushComment 4198400 (PStr " parses the header")].
Proof. vm_compute. reflexivity. Qed.

End Initial.

Section NotePad.

Import SkelNotePad.

Local Open Scope Z_scope.



End NotePad.

